(** * Step mirroring ([sync_step]) and the tracing shim ([traceroot_wrapper])

    A shallow embedding of

    - [src/backend/app/utils/server/sync_step.py]: the decorator [sync_step],
      its asynchronous generator [wrapper] and the coroutine [send_to_api];
    - [src/utils/traceroot_wrapper.py]: the choice between the tracing
      back end and the fall-back definitions of [trace], [get_logger] and
      [is_enabled].

    Python objects are modelled by what the code observes of them.  Every
    call that leaves the module (configuration, [json.loads], the task-lock
    lookup, the clock, the logger, [asyncio.create_task], the HTTP client) is
    recorded in a trace of effects, and an exception is an explicit result. *)

From Stdlib Require Import Ascii String ZArith QArith.
From stdpp Require Import gmap strings list.

Set Warnings "-register-all".

Local Open Scope string_scope.
Local Open Scope Z_scope.

(** ** Python values *)

Module Py.

(** Attribute values and identifiers: the hashable scalars. *)
Inductive pyval :=
| PyNone
| PyBool (b : bool)
| PyInt (z : Z)
| PyStr (s : string).

(** Truth value testing ([if x:]). *)
Definition truthy (v : pyval) : bool :=
  match v with
  | PyNone => false
  | PyBool b => b
  | PyInt z => negb (z =? 0)
  | PyStr s => negb (String.eqb s EmptyString)
  end.

(** [env(...)] gives a string or [None]; [if not server_url] tests it. *)
Definition truthy_opt (o : option string) : bool :=
  match o with
  | Some s => negb (String.eqb s EmptyString)
  | None => false
  end.

(** An object, as far as attribute access goes: its attribute dictionary. *)
Abbreviation pyobj := (gmap string pyval).

Definition hasattr (o : pyobj) (name : string) : bool :=
  bool_decide (is_Some (o !! name)).

(** An exception instance: class name, message, and whether the class
    derives from [Exception] (only [BaseException] otherwise, as
    [asyncio.CancelledError] or [KeyboardInterrupt]). *)
Record PyExc := mkExc {
  exc_type : string;
  exc_msg : string;
  exc_is_Exception : bool
}.

Definition TypeError (msg : string) : PyExc := mkExc "TypeError" msg true.
Definition AttributeError (msg : string) : PyExc := mkExc "AttributeError" msg true.

(** [str.isspace] for one character; a character stands for the code point
    of the same number, so these are the white-space code points below 256. *)
Definition isspace (c : ascii) : bool :=
  let n := nat_of_ascii c in
  ((9 <=? n)%nat && (n <=? 13)%nat) || ((28 <=? n)%nat && (n <=? 32)%nat)
  || (n =? 133)%nat || (n =? 160)%nat.

Fixpoint lstrip (s : string) : string :=
  match s with
  | String c s' => if isspace c then lstrip s' else s
  | EmptyString => EmptyString
  end.

Fixpoint rstrip (s : string) : string :=
  match s with
  | EmptyString => EmptyString
  | String c s' =>
      match rstrip s' with
      | EmptyString => if isspace c then EmptyString else String c EmptyString
      | r => String c r
      end
  end.

(** [s.strip()] *)
Definition strip (s : string) : string := rstrip (lstrip s).

(** [s.startswith(p)] *)
Definition startswith (s p : string) : bool := String.prefix p s.

(** [s[n:]] *)
Fixpoint slice_from (n : nat) (s : string) : string :=
  match n, s with
  | O, _ => s
  | S n', String _ s' => slice_from n' s'
  | S _, EmptyString => EmptyString
  end.

(** [p in s] for two strings: substring test. *)
Fixpoint contains (s p : string) : bool :=
  String.prefix p s ||
  match s with
  | String _ s' => contains s' p
  | EmptyString => false
  end.

End Py.
Import Py.

(** ** JSON values, as [json.loads] builds them *)

Inductive json :=
| JNull                                  (* None *)
| JBool (b : bool)                       (* True / False *)
| JInt (z : Z)                           (* int *)
| JFloat (literal : string)              (* float, kept as its literal *)
| JStr (s : string)                      (* str *)
| JArr (xs : list json)                  (* list *)
| JObj (items : list (string * json)).   (* dict, items in insertion order *)

(** [d.get(key)] on the items of a dict (keys of a dict are distinct). *)
Fixpoint dict_get (items : list (string * json)) (key : string) : option json :=
  match items with
  | [] => None
  | (k, v) :: rest => if String.eqb k key then Some v else dict_get rest key
  end.

Definition dict_keys (items : list (string * json)) : list string := map fst items.

(** [d[key] = v]: an existing key keeps its place and takes the new value. *)
Fixpoint dict_set (items : list (string * json)) (key : string) (v : json)
  : list (string * json) :=
  match items with
  | [] => [(key, v)]
  | (k, v0) :: rest =>
      if String.eqb k key then (k, v) :: rest else (k, v0) :: dict_set rest key v
  end.

Definition json_type_name (j : json) : string :=
  match j with
  | JNull => "NoneType"
  | JBool _ => "bool"
  | JInt _ => "int"
  | JFloat _ => "float"
  | JStr _ => "str"
  | JArr _ => "list"
  | JObj _ => "dict"
  end.

(** ** Events, the JSON decoder, and the world around the wrapper *)

(** A value produced by the wrapped generator, by what [wrapper] observes of
    it: whether it is a [str], and what [json.loads] does with it. *)
Inductive Event :=
| EvStr (s : string)        (* a str *)
| EvBytes (b : string)      (* a bytes or bytearray object, by its octets *)
| EvObject (cls : string).  (* any other object, by the name of its class *)

(** What a call to the JSON decoder on text comes to. *)
Inductive loads_result :=
| Parsed (json_data : json)
| JSONDecodeError (msg : string)   (* raises [json.JSONDecodeError] *)
| LoadsRaises (e : PyExc).         (* raises something that is not one, as
                                      [UnicodeDecodeError] or [RecursionError] *)

(** The [json] module of the standard library is not part of the program:
    the development is parametric in the decoder of text and of octets. *)
Class JsonModule := {
  loads_str : string -> loads_result;
  loads_bytes : string -> loads_result
}.

(** [json.loads(s)]: anything but [str], [bytes] and [bytearray] is refused
    with a [TypeError] before decoding starts. *)
Definition json_loads `{JsonModule} (s : Event) : loads_result :=
  match s with
  | EvStr t => loads_str t
  | EvBytes b => loads_bytes b
  | EvObject cls =>
      LoadsRaises
        (TypeError ("the JSON object must be str, bytes or bytearray, not " +:+ cls))
  end.

(** The body of the request sent to the sink (the dict literal of [wrapper]).
    [timestamp] is [time.time_ns() / 1_000_000_000], kept as the exact
    quotient. *)
Record MirroredPayload := mkPayload {
  task_id : pyval;
  step : json;
  data : json;
  timestamp : Q
}.

Inductive Level := ERROR | WARNING.

(** Log records: the message template and the values interpolated in it. *)
Inductive LogMsg :=
| FailedToParse (e : string) (value_json_str : Event)
    (* "Failed to parse JSON in sync_step: {e}. Value: {value_json_str}" *)
| MissingKey (keys : list string)
    (* "Missing 'step' or 'data' key in sync_step JSON. Keys: {list(json_data.keys())}" *)
| TaskLockNotFound (project_id : pyval)
    (* "Task lock not found for project_id {chat.project_id}, using chat.task_id" *)
| FailedToSync (url : option string) (type_name : string) (e : string).
    (* "Failed to sync step to {url}: {type(e).__name__}: {e}" *)

(** The calls that leave the module, in the order they are made. *)
Inductive Effect :=
| CallEnv (key : string)                                    (* env(key) *)
| CallJsonLoads (s : Event)                                 (* json.loads(s) *)
| CallGetTaskLock (project_id : pyval)                      (* get_task_lock_if_exists(..) *)
| CallTimeNs                                                (* time.time_ns() *)
| Log (lvl : Level) (msg : LogMsg)                          (* logger.error / .warning *)
| CreateTask (url : option string) (payload : MirroredPayload)
                                                            (* asyncio.create_task(send_to_api(..)) *)
| ClientOpen                                                (* httpx.AsyncClient().__aenter__ *)
| ClientPost (url : option string) (payload : MirroredPayload)
                                                            (* client.post(url, json=data) *)
| ClientClose.                                              (* __aexit__ *)

(** The state the wrapper reads. *)
Record World := mkWorld {
  (** the configuration behind [env] *)
  environ : gmap string string;
  (** the task-lock registry behind [get_task_lock_if_exists] *)
  task_locks : pyval -> option pyobj;
  (** the clock behind [time.time_ns] *)
  clock_ns : Z
}.

(** Modelled from the spec: [app.component.environment.env], the reader of
    the single configuration option, is not among the sources; it gives the
    configured string, or [None] when the option is unset. *)
Definition env (w : World) (key : string) : option string := environ w !! key.

(** Modelled from the spec: [app.service.task.get_task_lock_if_exists], the
    read-only query [lookup(project_id) -> optional record], is not among the
    sources; the record is given by its attributes. *)
Definition get_task_lock_if_exists (w : World) (project_id : pyval) : option pyobj :=
  task_locks w project_id.

(** ** Computations: a trace of effects and a value or an exception *)

Inductive Result (A : Type) :=
| Ok (a : A)
| Raise (e : PyExc).
Arguments Ok {A} a.
Arguments Raise {A} e.

Definition Exec (A : Type) : Type := list Effect * Result A.

Definition ret {A} (a : A) : Exec A := ([], Ok a).
Definition raise {A} (e : PyExc) : Exec A := ([], Raise e).
Definition emit (eff : Effect) : Exec unit := ([eff], Ok tt).

Definition bind {A B} (m : Exec A) (k : A -> Exec B) : Exec B :=
  match m with
  | (t, Ok a) => let (t', r) := k a in ((t ++ t')%list, r)
  | (t, Raise e) => (t, Raise e)
  end.

Declare Scope exec_scope.
Delimit Scope exec_scope with exec.
Notation "x <- m ;; k" := (bind m (fun x => k))
  (at level 100, m at next level, right associativity) : exec_scope.
Notation "m ;;; k" := (bind m (fun _ => k))
  (at level 100, right associativity) : exec_scope.
Local Open Scope exec_scope.

Definition trace_of {A} (m : Exec A) : list Effect := fst m.
Definition result_of {A} (m : Exec A) : Result A := snd m.

(** ** Operations of [wrapper] on Python objects *)

(** [key in json_data]: key membership for a dict, element equality for a
    list, substring test for a str; the other JSON values are no containers. *)
Definition py_in (key : string) (json_data : json) : Exec bool :=
  match json_data with
  | JObj items => ret (bool_decide (is_Some (dict_get items key)))
  | JArr xs =>
      ret (existsb (fun x => match x with JStr s => String.eqb s key | _ => false end) xs)
  | JStr s => ret (contains s key)
  | j => raise (TypeError ("argument of type '" +:+ json_type_name j +:+ "' is not iterable"))
  end.

(** [list(json_data.keys())] *)
Definition py_keys (json_data : json) : Exec (list string) :=
  match json_data with
  | JObj items => ret (dict_keys items)
  | j => raise (AttributeError ("'" +:+ json_type_name j +:+ "' object has no attribute 'keys'"))
  end.

(** [json_data[key]] with a str key *)
Definition py_getitem (json_data : json) (key : string) : Exec json :=
  match json_data with
  | JObj items =>
      match dict_get items key with
      | Some v => ret v
      | None => raise (mkExc "KeyError" key true)
      end
  | JArr _ => raise (TypeError "list indices must be integers or slices, not str")
  | JStr _ => raise (TypeError "string indices must be integers, not 'str'")
  | j => raise (TypeError ("'" +:+ json_type_name j +:+ "' object is not subscriptable"))
  end.

(** [o.name] *)
Definition getattr (o : pyobj) (name : string) : Exec pyval :=
  match o !! name with
  | Some v => ret v
  | None => raise (AttributeError ("object has no attribute '" +:+ name +:+ "'"))
  end.

Definition log (lvl : Level) (msg : LogMsg) : Exec unit := emit (Log lvl msg).

(** ** The body of [wrapper] *)

Section Wrapper.

Context `{JsonModule}.

(** Lines 37-40: the candidate JSON text of an event. *)
Definition value_json_str (value : Event) : Event :=
  match value with
  | EvStr s =>
      if startswith s "data: "
      then EvStr (strip (slice_from (String.length "data: ") s))
      else value
  | _ => value
  end.

(** Line 55: [args[0] if args and hasattr(args[0], 'task_id') else None]. *)
Definition chat_of (args : list pyobj) : option pyobj :=
  match args with
  | a :: _ => if hasattr a "task_id" then Some a else None
  | [] => None
  end.

(** Lines 56-65: the task identifier the mirror request will carry. *)
Definition resolve_task_id (w : World) (args : list pyobj) : Exec pyval :=
  match chat_of args with
  | None => ret PyNone
  | Some chat =>
      project_id <- getattr chat "project_id" ;;
      emit (CallGetTaskLock project_id) ;;;
      match get_task_lock_if_exists w project_id with
      | Some task_lock =>
          use_lock <- (if hasattr task_lock "current_task_id"
                       then cur <- getattr task_lock "current_task_id" ;; ret (truthy cur)
                       else ret false) ;;
          if use_lock : bool
          then getattr task_lock "current_task_id"
          else getattr chat "task_id"
      | None =>
          log WARNING (TaskLockNotFound project_id) ;;;
          getattr chat "task_id"
      end
  end.

(** Lines 67-78: schedule the mirror request when there is a task id. *)
Definition dispatch (w : World) (sync_url : option string)
           (task_id : pyval) (json_data : json) : Exec unit :=
  if truthy task_id then
    step <- py_getitem json_data "step" ;;
    data <- py_getitem json_data "data" ;;
    emit CallTimeNs ;;;
    emit (CreateTask sync_url
            (mkPayload task_id step data (Qmake (clock_ns w) 1000000000)))
  else ret tt.

(** Lines 33-79: what happens to one [value] of the wrapped generator.
    [Ok v] is [yield v]; [Raise e] is an exception leaving the generator. *)
Definition loop_body (w : World) (server_url sync_url : option string)
           (args : list pyobj) (value : Event) : Exec Event :=
  if negb (truthy_opt server_url) then ret value
  else
    let value_json_str := value_json_str value in
    emit (CallJsonLoads value_json_str) ;;;
    match json_loads value_json_str with
    | LoadsRaises e => raise e
    | JSONDecodeError e =>
        log ERROR (FailedToParse e value_json_str) ;;;
        ret value
    | Parsed json_data =>
        no_step <- (b <- py_in "step" json_data ;; ret (negb b)) ;;
        missing <- (if no_step : bool then ret true
                    else b <- py_in "data" json_data ;; ret (negb b)) ;;
        if missing : bool then
          keys <- py_keys json_data ;;
          log ERROR (MissingKey keys) ;;;
          ret value
        else
          task_id <- resolve_task_id w args ;;
          dispatch w sync_url task_id json_data ;;;
          ret value
    end.

(** ** The generators *)

(** One run of the wrapped generator [func] on the call arguments, as far as it
    is consumed: the values it produces, and how it ends. *)
Inductive Upstream :=
| UStop                                     (* StopAsyncIteration *)
| UFail (e : PyExc)                         (* an exception of func itself *)
| UNext (value : Event) (rest : Upstream).  (* yield value *)

Inductive Ending :=
| Exhausted
| Failed (e : PyExc).

(** What the consumer of an asynchronous generator observes, together with
    the trace of effects of the run. *)
Record Run := mkRun {
  yielded : list Event;
  effects : list Effect;
  ending : Ending
}.

Fixpoint events_of (up : Upstream) : list Event :=
  match up with
  | UNext value rest => value :: events_of rest
  | _ => []
  end.

Definition ending_of (up : Upstream) : Ending :=
  (fix go up := match up with
                | UStop => Exhausted
                | UFail e => Failed e
                | UNext _ rest => go rest
                end) up.

(** The unwrapped stream, consumed directly. *)
Definition unwrapped (up : Upstream) : Run :=
  mkRun (events_of up) [] (ending_of up).

(** The world may change between two resumptions of the generator:
    [ws 0] is the world when the body of [wrapper] starts, [ws (S i)] the
    world when the [i]-th value of the wrapped generator is processed. *)
Definition Timeline := nat -> World.

(** Lines 32-79: the [async for] loop from the [i]-th value on. *)
Fixpoint async_for (ws : Timeline) (i : nat) (server_url sync_url : option string)
         (args : list pyobj) (up : Upstream) : Run :=
  match up with
  | UStop => mkRun [] [] Exhausted
  | UFail e => mkRun [] [] (Failed e)
  | UNext value rest =>
      match loop_body (ws (S i)) server_url sync_url args value with
      | (t, Ok v) =>
          let r := async_for ws (S i) server_url sync_url args rest in
          mkRun (v :: yielded r) (t ++ effects r)%list (ending r)
      | (t, Raise e) => mkRun [] t (Failed e)
      end
  end.

(** Line 31: [server_url + "/chat/steps" if server_url else None]. *)
Definition sync_url_of (server_url : option string) : option string :=
  if truthy_opt server_url
  then option_map (fun s => s +:+ "/chat/steps") server_url
  else None.

(** A generator function: from the call arguments to the run it makes. *)
Definition GenFunc := list pyobj -> gmap string pyobj -> Upstream.

(** Lines 29-79: a call of [wrapper], consumed to its end. *)
Definition wrapper (func : GenFunc) (ws : Timeline)
           (args : list pyobj) (kwargs : gmap string pyobj) : Run :=
  let server_url := env (ws O) "SERVER_URL" in
  let sync_url := sync_url_of server_url in
  let r := async_for ws O server_url sync_url args (func args kwargs) in
  mkRun (yielded r) (CallEnv "SERVER_URL" :: effects r) (ending r).

(** Lines 28-81: the decorator.  [w] is the world in which the decorator is
    applied; its body only defines [wrapper] and returns it. *)
Definition sync_step (w : World) (func : GenFunc)
  : Timeline -> list pyobj -> gmap string pyobj -> Run :=
  wrapper func.

End Wrapper.

(** ** [send_to_api] and the tasks of the event loop *)

(** What [client.post] comes to: a response (of any status; the code does
    not look at it) or an exception. *)
Inductive PostResult :=
| Returned (status : Z)
| Raised (e : PyExc).

(** A client that has been built and entered, by what it does in this call:
    what its post comes to, and the exception [__aexit__] raises, if any. *)
Record Client := mkClient {
  post_result : PostResult;
  aexit : option PyExc
}.

(** What [httpx.AsyncClient()] followed by [__aenter__] comes to: one of
    them raises, and there is no client, or there is a client. *)
Inductive PostOutcome :=
| NoClient (e : PyExc)
| WithClient (client : Client).

(** The four ways of an exchange with the sink: the post returns a response
    and the client is left normally; the post raises [e] and the client is
    left normally; no client could be built or entered; the post comes to
    [r] and leaving the client raises [e]. *)
Definition Responds (status : Z) : PostOutcome := WithClient (mkClient (Returned status) None).
Definition PostRaises (e : PyExc) : PostOutcome := WithClient (mkClient (Raised e) None).
Definition ClientRaises (e : PyExc) : PostOutcome := NoClient e.
Definition ExitRaises (r : PostResult) (e : PyExc) : PostOutcome :=
  WithClient (mkClient r (Some e)).

(** The sink for one request: what building the client for it, posting it and
    leaving the client come to. *)
Definition Transport := option string -> MirroredPayload -> PostOutcome.

(** [async with httpx.AsyncClient() as client: body].  When building or
    entering the client raises, the body does not run and the exception
    leaves.  Otherwise [__aexit__] is called when the body is left, normally
    or by an exception; an exception of [__aexit__] takes the place of the
    outcome of the body. *)
Definition with_client {A} (made : PostOutcome) (body : Client -> Exec A) : Exec A :=
  match made with
  | NoClient e => raise e
  | WithClient client =>
      let (t, r) := body client in
      ((ClientOpen :: t) ++ [ClientClose],
       match aexit client with
       | Some e => Raise e
       | None => r
       end)%list
  end.

(** Lines 84-90.  The [try] is inside the [async with]; [except Exception]
    catches the instances of [Exception] only. *)
Definition send_to_api (post : Transport) (url : option string)
           (data : MirroredPayload) : Exec unit :=
  with_client (post url data)
    (fun client =>
       emit (ClientPost url data) ;;;
       match post_result client with
       | Returned _ => ret tt
       | Raised e =>
           if exc_is_Exception e
           then log ERROR (FailedToSync url (exc_type e) (exc_msg e))
           else raise e
       end).

Section EventLoop.

Context `{JsonModule}.

Definition Task : Type := option string * MirroredPayload.

(** The tasks a piece of trace has created, oldest first. *)
Definition created_tasks (t : list Effect) : list Task :=
  omap (fun eff => match eff with
                   | CreateTask url payload => Some (url, payload)
                   | _ => None
                   end) t.

(** The event loop runs a task to its end; an exception of the coroutine
    stays in the task object and reaches nobody. *)
Definition run_task (post : Transport) (task : Task) : list Effect :=
  trace_of (send_to_api post (fst task) (snd task)).

Definition run_tasks (post : Transport) (tasks : list Task) : list Effect :=
  flat_map (run_task post) tasks.

(** The [async for] loop of [wrapper] under an event loop: after the
    [i]-th value has been processed the generator is suspended, and the
    loop runs the pending tasks there when [sched i] says so.  Tasks still
    pending when the stream ends are left to the loop. *)
Fixpoint async_for_with_tasks (post : Transport) (sched : nat -> bool)
         (ws : Timeline) (i : nat) (server_url sync_url : option string)
         (args : list pyobj) (pending : list Task) (up : Upstream) : Run :=
  match up with
  | UStop => mkRun [] [] Exhausted
  | UFail e => mkRun [] [] (Failed e)
  | UNext value rest =>
      match loop_body (ws (S i)) server_url sync_url args value with
      | (t, Ok v) =>
          let pending' := (pending ++ created_tasks t)%list in
          let ran := if sched i then run_tasks post pending' else [] in
          let r := async_for_with_tasks post sched ws (S i) server_url sync_url args
                     (if sched i then [] else pending') rest in
          mkRun (v :: yielded r) (t ++ ran ++ effects r)%list (ending r)
      | (t, Raise e) => mkRun [] t (Failed e)
      end
  end.

End EventLoop.

(** ** The tracing shim, [utils/traceroot_wrapper.py] *)

Module Traceroot.
Section Shim.

(** The functions a decorator is applied to. *)
Variable Callable : Type.

(** The arguments of a decorator factory: positional and keyword. *)
Definition DecoArgs : Type := list pyval * gmap string pyval.

(** The third-party package, when it can be imported: the result of
  [traceroot.init()] and its decorator factory [traceroot.trace]. *)
Record Package := {
init : bool;
package_trace : DecoArgs -> Callable -> Callable
}.

Inductive LoggerKind := TraceRootLogger | PythonLogger.

(** What the module defines once it is loaded. *)
Record Shim := {
trace : DecoArgs -> Callable -> Callable;
get_logger : LoggerKind;
is_enabled : bool
}.

(** Lines 69-73: the definitions of the [else] branch. *)
Definition noop_trace (_ : DecoArgs) : Callable -> Callable :=
let decorator := fun func : Callable => func in
decorator.

(** Lines 21-26 and 50-96: [pkg] is [None] when the import fails
  ([TRACEROOT_AVAILABLE] is then [False] and [init] is not called). *)
Definition load (pkg : option Package) : Shim :=
match pkg with
| Some p =>
    if init p
    then {| trace := package_trace p; get_logger := TraceRootLogger; is_enabled := true |}
    else {| trace := noop_trace; get_logger := PythonLogger; is_enabled := false |}
| None => {| trace := noop_trace; get_logger := PythonLogger; is_enabled := false |}
end.

End Shim.
End Traceroot.

(** ** A decoder of JSON text, to run the model on concrete events

    The theorems below hold for every [JsonModule].  This instance follows
    the grammar of the standard decoder on ASCII text: white space, the
    literals, numbers, strings with the short escapes, arrays and objects;
    a [\u] escape is outside of it.  Error messages carry no position. *)

Module JsonText.

Inductive pres :=
| POk (v : json) (rest : string)
| PErr (msg : string)         (* json.JSONDecodeError *)
| PDepth                      (* nesting exhausted the recursion budget *)
| PUnsupported.               (* text outside of the fragment *)

Definition is_ws (c : ascii) : bool :=
  match c with
  | " "%char | "009"%char | "010"%char | "013"%char => true
  | _ => false
  end.

Fixpoint skip_ws (s : string) : string :=
  match s with
  | String c r => if is_ws c then skip_ws r else s
  | EmptyString => EmptyString
  end.

Definition is_digit (c : ascii) : bool :=
  let n := nat_of_ascii c in (48 <=? n)%nat && (n <=? 57)%nat.

Fixpoint take_digits (s : string) : string * string :=
  match s with
  | String c r =>
      if is_digit c then let (d, r') := take_digits r in (String c d, r') else (EmptyString, s)
  | EmptyString => (EmptyString, EmptyString)
  end.

Definition digits_value (d : string) : Z :=
  fold_left (fun acc c => 10 * acc + Z.of_nat (nat_of_ascii c - 48))
            (list_ascii_of_string d) 0.

Definition unescape (c : ascii) : option ascii :=
  match c with
  | "034"%char => Some "034"%char
  | "\"%char => Some "\"%char
  | "/"%char => Some "/"%char
  | "b"%char => Some "008"%char
  | "f"%char => Some "012"%char
  | "n"%char => Some "010"%char
  | "r"%char => Some "013"%char
  | "t"%char => Some "009"%char
  | _ => None
  end.

(** After the opening quote: the content of the string and what follows
    the closing quote. *)
Inductive sres :=
| SOk (content rest : string)
| SErr (msg : string)
| SUnsupported.

Fixpoint scan_string (s : string) : sres :=
  match s with
  | EmptyString => SErr "Unterminated string starting at"
  | String c r =>
      if Ascii.eqb c "034"%char then SOk EmptyString r
      else if Ascii.eqb c "\"%char then
        match r with
        | EmptyString => SErr "Unterminated string starting at"
        | String e r' =>
            if Ascii.eqb e "u"%char then SUnsupported
            else match unescape e with
                 | None => SErr "Invalid \escape"
                 | Some ch =>
                     match scan_string r' with
                     | SOk content rest => SOk (String ch content) rest
                     | other => other
                     end
                 end
        end
      else if (nat_of_ascii c <? 32)%nat then SErr "Invalid control character at"
      else if (127 <? nat_of_ascii c)%nat then SUnsupported
      else match scan_string r with
           | SOk content rest => SOk (String c content) rest
           | other => other
           end
  end.

(** The optional fraction and exponent of a number: the text matched and
    the rest. *)
Definition scan_frac (s : string) : string * string :=
  match s with
  | String "."%char r =>
      match take_digits r with
      | (EmptyString, _) => (EmptyString, s)
      | (d, r') => (String "."%char d, r')
      end
  | _ => (EmptyString, s)
  end.

Definition scan_exp (s : string) : string * string :=
  match s with
  | String e r =>
      if Ascii.eqb e "e"%char || Ascii.eqb e "E"%char then
        let (sign, r1) :=
          match r with
          | String c r1 =>
              if Ascii.eqb c "+"%char || Ascii.eqb c "-"%char
              then (String c EmptyString, r1) else (EmptyString, r)
          | EmptyString => (EmptyString, r)
          end in
        match take_digits r1 with
        | (EmptyString, _) => (EmptyString, s)
        | (d, r') => (String e (sign +:+ d), r')
        end
      else (EmptyString, s)
  | EmptyString => (EmptyString, s)
  end.

(** A number: an optional sign, then [0] or a run of digits that does not
    start with [0], then the optional fraction and exponent. *)
Definition scan_number (s : string) : pres :=
  let (neg, s1) := match s with
                   | String "-"%char r => (true, r)
                   | _ => (false, s)
                   end in
  let int_part :=
    match s1 with
    | String "0"%char r => Some ("0", r)
    | String c _ => if is_digit c then Some (take_digits s1) else None
    | EmptyString => None
    end in
  match int_part with
  | None => PErr "Expecting value"
  | Some (d, r) =>
      let (frac, r1) := scan_frac r in
      let (exp, r2) := scan_exp r1 in
      match frac, exp with
      | EmptyString, EmptyString =>
          POk (JInt (if neg then - digits_value d else digits_value d)) r2
      | _, _ => POk (JFloat ((if neg then "-" else EmptyString) +:+ d +:+ frac +:+ exp)) r2
      end
  end.

Definition literals : list (string * json) :=
  [("null", JNull); ("true", JBool true); ("false", JBool false);
   ("NaN", JFloat "nan"); ("Infinity", JFloat "inf"); ("-Infinity", JFloat "-inf")].

Fixpoint scan_literal (ls : list (string * json)) (s : string) : option pres :=
  match ls with
  | [] => None
  | (word, v) :: ls' =>
      if startswith s word then Some (POk v (slice_from (String.length word) s))
      else scan_literal ls' s
  end.

(** A value, the elements of an array after a first [[], and the members of
    an object after the quote that opens a key. *)
Fixpoint scan_value (fuel : nat) (s : string) : pres :=
  match fuel with
  | O => PDepth
  | S fuel' =>
      match s with
      | String "034"%char r =>
          match scan_string r with
          | SOk content rest => POk (JStr content) rest
          | SErr msg => PErr msg
          | SUnsupported => PUnsupported
          end
      | String "["%char r =>
          match skip_ws r with
          | String "]"%char r' => POk (JArr []) r'
          | r' => scan_elements fuel' r' []
          end
      | String "{"%char r =>
          match skip_ws r with
          | String "}"%char r' => POk (JObj []) r'
          | String "034"%char r' => scan_members fuel' r' []
          | _ => PErr "Expecting property name enclosed in double quotes"
          end
      | _ =>
          match scan_literal literals s with
          | Some res => res
          | None => scan_number s
          end
      end
  end
with scan_elements (fuel : nat) (s : string) (acc : list json) : pres :=
  match fuel with
  | O => PDepth
  | S fuel' =>
      match scan_value fuel' s with
      | POk v r =>
          match skip_ws r with
          | String ","%char r' => scan_elements fuel' (skip_ws r') (acc ++ [v])
          | String "]"%char r' => POk (JArr (acc ++ [v])) r'
          | _ => PErr "Expecting ',' delimiter"
          end
      | other => other
      end
  end
with scan_members (fuel : nat) (s : string) (acc : list (string * json)) : pres :=
  match fuel with
  | O => PDepth
  | S fuel' =>
      match scan_string s with
      | SErr msg => PErr msg
      | SUnsupported => PUnsupported
      | SOk key r =>
          match skip_ws r with
          | String ":"%char r1 =>
              match scan_value fuel' (skip_ws r1) with
              | POk v r2 =>
                  let acc' := dict_set acc key v in
                  match skip_ws r2 with
                  | String "}"%char r3 => POk (JObj acc') r3
                  | String ","%char r3 =>
                      match skip_ws r3 with
                      | String "034"%char r4 => scan_members fuel' r4 acc'
                      | _ => PErr "Expecting property name enclosed in double quotes"
                      end
                  | _ => PErr "Expecting ',' delimiter"
                  end
              | other => other
              end
          | _ => PErr "Expecting ':' delimiter"
          end
      end
  end.

(** [json.loads] on text: one value, white space around it, nothing else. *)
Definition loads (s : string) : loads_result :=
  match scan_value (2 * String.length s + 2) (skip_ws s) with
  | POk v rest =>
      match skip_ws rest with
      | EmptyString => Parsed v
      | _ => JSONDecodeError "Extra data"
      end
  | PErr msg => JSONDecodeError msg
  | PDepth => LoadsRaises (mkExc "RecursionError" "maximum recursion depth exceeded" true)
  | PUnsupported => LoadsRaises (mkExc "NotImplementedError" "text outside of the fragment" true)
  end.

(** Octets are read as ASCII text. *)
#[export] Instance json_module : JsonModule :=
  {| loads_str := loads; loads_bytes := loads |}.

End JsonText.

(** ** Further notions: streams in two parts, and what a trace posts *)

(** The values [events], then the stream [tail]. *)
Definition followed_by (events : list Event) (tail : Upstream) : Upstream :=
  fold_right UNext tail events.

(** The requests a piece of trace has posted, oldest first. *)
Definition posted (t : list Effect) : list Task :=
  omap (fun eff => match eff with
                   | ClientPost url payload => Some (url, payload)
                   | _ => None
                   end) t.

Definition is_log (eff : Effect) : bool :=
  match eff with Log _ _ => true | _ => false end.

Definition is_client_open (eff : Effect) : bool :=
  match eff with ClientOpen => true | _ => false end.

Definition is_client_close (eff : Effect) : bool :=
  match eff with ClientClose => true | _ => false end.

(** [httpx.AsyncClient()] and its [__aenter__] gave a client. *)
Definition has_client (made : PostOutcome) : bool :=
  match made with WithClient _ => true | NoClient _ => false end.

(** The task gets a client from the transport when it is run. *)
Definition gets_client (post : Transport) (task : Task) : bool :=
  has_client (post (fst task) (snd task)).

(** Every character of the string is white space for [str.strip]. *)
Fixpoint all_space (s : string) : bool :=
  match s with
  | EmptyString => true
  | String c s' => isspace c && all_space s'
  end.

Definition is_object (j : json) : bool :=
  match j with JObj _ => true | _ => false end.

(** ** The rest of the tracing shim: the fall-back logger and the start-up *)

Module TracerootWrapper.

(** *** The loggers of the standard [logging] module

    A logger is known by its name; the module keeps the root logger and a
    dictionary of the others.  Of a logger the shim reads and writes the
    list of handlers and the level. *)

Record Handler := mkHandler {
  handler_class : string;
  formatter : option string     (* the format string of its formatter *)
}.

Record Logger := mkLogger {
  handlers : list Handler;
  level : Z
}.

Definition NOTSET : Z := 0.
Definition INFO : Z := 20.

Record Registry := mkRegistry {
  root : Logger;
  loggerDict : gmap string Logger
}.

(** A logger object: the root logger, or the one of a name. *)
Inductive LoggerRef :=
| RootLogger
| NamedLogger (name : string).

(** [Logger(name)]: a new logger has no handler and no level of its own. *)
Definition new_logger : Logger := mkLogger [] NOTSET.

(** The logger behind a reference; a name not yet in the dictionary stands
    for the logger its first use will create. *)
Definition logger_at (reg : Registry) (ref : LoggerRef) : Logger :=
  match ref with
  | RootLogger => root reg
  | NamedLogger name => default new_logger (loggerDict reg !! name)
  end.

Definition set_logger (reg : Registry) (ref : LoggerRef) (l : Logger) : Registry :=
  match ref with
  | RootLogger => mkRegistry l (loggerDict reg)
  | NamedLogger name => mkRegistry (root reg) (<[name := l]> (loggerDict reg))
  end.

(** [logging.getLogger(name)]: the root logger for the empty name and for
    the name [root]; otherwise the logger of that name, created on first
    use. *)
Definition getLogger (name : string) (reg : Registry) : Registry * LoggerRef :=
  if String.eqb name EmptyString || String.eqb name "root" then (reg, RootLogger)
  else match loggerDict reg !! name with
       | Some _ => (reg, NamedLogger name)
       | None => (mkRegistry (root reg) (<[name := new_logger]> (loggerDict reg)),
                  NamedLogger name)
       end.

Definition log_format : string :=
  "%(asctime)s - %(name)s - %(levelname)s - %(message)s".

(** Lines 75-85: [get_logger] of the fall-back branch. *)
Definition get_logger (name : string) (reg : Registry) : Registry * LoggerRef :=
  let (reg, logger) := getLogger name reg in
  match handlers (logger_at reg logger) with
  | [] =>
      let handler := mkHandler "StreamHandler" None in
      let formatter := log_format in
      let handler := mkHandler (handler_class handler) (Some formatter) in
      let l := logger_at reg logger in
      let l := mkLogger (handlers l ++ [handler]) (level l) in   (* addHandler *)
      let l := mkLogger (handlers l) INFO in                     (* setLevel *)
      (set_logger reg logger l, logger)
  | _ :: _ => (reg, logger)
  end.

(** *** The caller's module *)

(** A frame of the call stack: the [__file__] entry of its globals, if any,
    and the frame it was called from. *)
Inductive Frame :=
| mkFrame (file : option pyval) (f_back : option Frame).

Definition pyval_type_name (v : pyval) : string :=
  match v with
  | PyNone => "NoneType"
  | PyBool _ => "bool"
  | PyInt _ => "int"
  | PyStr _ => "str"
  end.

(** Lines 29-44.  [frame] is what [inspect.currentframe()] returns. *)
Definition _get_module_name (frame : option Frame) : Result string :=
  let caller_frame :=
    match frame with
    | Some (mkFrame _ (Some (mkFrame _ back))) => back
    | _ => None
    end in
  match caller_frame with
  | Some (mkFrame file _) =>
      let caller_file := default (PyStr EmptyString) file in
      match caller_file with
      | PyStr s =>
          if contains s "backend" then Ok "backend"
          else if contains s "server" then Ok "server"
          else Ok "unknown"
      | v => Raise (TypeError ("argument of type '" +:+ pyval_type_name v +:+
                               "' is not iterable"))
      end
  | None => Ok "unknown"
  end.

(** *** Loading the module *)

(** A resolved absolute path, by its components below the root. *)
Definition Path := list string.

(** [p.parents[1]]: the path without its last two components; a path with
    fewer has no such parent. *)
Definition parents_1 (p : Path) : Result Path :=
  if (1 <? length p)%nat then Ok (take (length p - 2) p)
  else Raise (mkExc "IndexError" "1" true).

(** What loading the module does besides defining its names. *)
Inductive StartupEffect :=
| LoadDotenv (env_path : Path)                   (* load_dotenv(env_path) *)
| InfoInitialized (service_module : string)
    (* _init_logger.info("TraceRoot initialized successfully",
                         extra={"backend": "traceroot", "service_module": module_name}) *)
| WarningFallback (msg : string).                (* _fallback_logger.warning(msg) *)

Section Load.

Variable Callable : Type.

(** Lines 46-96: the module body after the import of the package.  [file] is
    [Path(__file__).resolve()], [frame] the frame [_get_module_name] finds
    itself in, [reg] the loggers at that time.  The calls into other
    packages ([load_dotenv], [traceroot.init], the import of
    [traceroot.logger] and its logger) are taken to return. *)
Definition load_module (pkg : option (Traceroot.Package Callable)) (file : Path)
           (frame : option Frame) (reg : Registry)
  : list StartupEffect * Result (Traceroot.Shim Callable * Registry) :=
  match parents_1 file with
  | Raise e => ([], Raise e)
  | Ok dir =>
      let env_path := (dir ++ [".env"])%list in
      let enabled := match pkg with
                     | Some p => Traceroot.init Callable p
                     | None => false
                     end in
      if enabled then
        match _get_module_name frame with
        | Ok module_name =>
            ([LoadDotenv env_path; InfoInitialized module_name],
             Ok (Traceroot.load Callable pkg, reg))
        | Raise e => ([LoadDotenv env_path], Raise e)
        end
      else
        let (reg, _fallback_logger) := getLogger "traceroot_wrapper" reg in
        let msg := match pkg with
                   | Some _ => "TraceRoot available but not initialized - using Python logging as fallback"
                   | None => "TraceRoot not available - using Python logging as fallback"
                   end in
        ([LoadDotenv env_path; WarningFallback msg],
         Ok (Traceroot.load Callable pkg, reg))
  end.

End Load.

End TracerootWrapper.

(** [p] occurs in [s]. *)
Definition occurs_in (p s : string) : Prop := exists a b, s = a +:+ p +:+ b.

(** ** Further concrete inputs *)

Module MoreExamples.

Import TracerootWrapper.

Definition newline : string := String "010"%char EmptyString.

(** The loggers of a process that has configured nothing: the root logger
    at level [WARNING], no other logger. *)
Definition bare_registry : Registry := mkRegistry (mkLogger [] 30) ∅.

(** The application has given the logger [sync_step] a file handler and the
    level [DEBUG]. *)
Definition configured_registry : Registry :=
  mkRegistry (mkLogger [] 30)
             {[ "sync_step" := mkLogger [mkHandler "FileHandler" None] 10 ]}.

(** The application has set the level of [sync_step] to [ERROR] and given it
    no handler. *)
Definition levelled_registry : Registry :=
  mkRegistry (mkLogger [] 30) {[ "sync_step" := mkLogger [] 40 ]}.

Definition shim_file : Path := ["srv"; "app"; "utils"; "traceroot_wrapper.py"].

(** The frames when [_get_module_name] runs: its own, the one of the module
    body, and the one of a caller whose file is given. *)
Definition frames_from (caller_file : option pyval) : option Frame :=
  Some (mkFrame (Some (PyStr "/srv/app/utils/traceroot_wrapper.py"))
          (Some (mkFrame (Some (PyStr "/srv/app/utils/traceroot_wrapper.py"))
                   (Some (mkFrame caller_file None))))).

End MoreExamples.

(** ** Notions used in the statements *)

(** An event that passed the test of line 49: both [in] tests gave true. *)
Definition validated (json_data : json) : Prop :=
  result_of (py_in "step" json_data) = Ok true /\
  result_of (py_in "data" json_data) = Ok true.

(** An event the body is written for: its candidate text does not decode, or
    decodes to an object. *)
Definition expected_event `{JsonModule} (value : Event) : Prop :=
  (exists msg, json_loads (value_json_str value) = JSONDecodeError msg) \/
  (exists items, json_loads (value_json_str value) = Parsed (JObj items)).

Definition is_env_read (eff : Effect) : bool :=
  match eff with CallEnv _ => true | _ => false end.

Definition is_create_task (eff : Effect) : bool :=
  match eff with CreateTask _ _ => true | _ => false end.

Definition is_client_post (eff : Effect) : bool :=
  match eff with ClientPost _ _ => true | _ => false end.

(** No effect of the trace is of the kind. *)
Definition quiet (kind : Effect -> bool) {A} (m : Exec A) : Prop :=
  List.filter kind (trace_of m) = [].

(** Run the monadic steps, leaving attribute and registry lookups alone. *)
Ltac exec_simpl := cbn -[lookup hasattr get_task_lock_if_exists].

(** Close a goal between closed terms by evaluation. *)
Ltac by_eval := vm_compute; reflexivity.

(** ** Concrete events, arguments and worlds *)

Module Examples.

Definition dq : string := String "034"%char EmptyString.
Definition quoted (s : string) : string := dq +:+ s +:+ dq.

(** The text of an object with the keys [step] and [data]: step [plan],
    data an object that maps [x] to 1. *)
Definition plan_json : string :=
  "{" +:+ quoted "step" +:+ ": " +:+ quoted "plan" +:+ ", " +:+
  quoted "data" +:+ ": {" +:+ quoted "x" +:+ ": 1}}".

(** A server-sent event line that carries a step. *)
Definition plan_event : Event := EvStr ("data: " +:+ plan_json).

(** Valid JSON without the key [data]. *)
Definition no_data_event : Event := EvStr ("data: {" +:+ quoted "step" +:+ ": 1}").

(** Valid JSON that is an array, a number. *)
Definition array_event : Event := EvStr "data: [1]".
Definition number_event : Event := EvStr "data: 5".

(** An event that is no text: a dict. *)
Definition dict_event : Event := EvObject "dict".

Definition chat : pyobj := {[ "task_id" := PyStr "T1"; "project_id" := PyStr "P1" ]}.
Definition chat_no_task_id : pyobj :=
  {[ "task_id" := PyStr EmptyString; "project_id" := PyStr "P1" ]}.
Definition only_task_id : pyobj := {[ "task_id" := PyStr "T1" ]}.
Definition only_project_id : pyobj := {[ "project_id" := PyStr "P1" ]}.

Definition sink : string := "http://sink".

Definition registry (task_lock : option pyobj) : pyval -> option pyobj :=
  fun project_id =>
    match project_id with
    | PyStr p => if String.eqb p "P1" then task_lock else None
    | _ => None
    end.

Definition now : Z := 1700000000500000000.

(** A sink is configured; project [P1] has no task lock. *)
Definition sink_world : World :=
  mkWorld {[ "SERVER_URL" := sink ]} (registry None) now.

Definition busy_lock : pyobj := {[ "current_task_id" := PyStr "T2" ]}.
Definition idle_lock : pyobj := {[ "current_task_id" := PyStr EmptyString ]}.

(** A sink is configured; the task lock of [P1] is on task [T2]. *)
Definition lock_world : World :=
  mkWorld {[ "SERVER_URL" := sink ]} (registry (Some busy_lock)) now.

(** A sink is configured; the task lock of [P1] has no current task. *)
Definition idle_lock_world : World :=
  mkWorld {[ "SERVER_URL" := sink ]} (registry (Some idle_lock)) now.

(** No sink is configured: the option is unset, or set to the empty string. *)
Definition no_sink_world : World := mkWorld ∅ (registry None) now.
Definition empty_sink_world : World :=
  mkWorld {[ "SERVER_URL" := EmptyString ]} (registry None) now.

(** The world of [sink_world] after the sink has been taken out of the
    configuration. *)
Definition sink_world_reconfigured : World := mkWorld ∅ (registry None) now.

Definition plan_payload (tid : string) : MirroredPayload :=
  mkPayload (PyStr tid) (JStr "plan") (JObj [("x", JInt 1)]) (Qmake now 1000000000).

(** A generator that produces the given events and stops. *)
Definition produces (events : list Event) : GenFunc :=
  fun _ _ => fold_right UNext UStop events.

(** The connection to the sink is refused. *)
Definition refused : Transport :=
  fun _ _ => PostRaises (mkExc "ConnectError" "All connection attempts failed" true).

(** The task is cancelled while the request is under way. *)
Definition cancelled : Transport :=
  fun _ _ => PostRaises (mkExc "CancelledError" EmptyString false).

(** The client cannot be built. *)
Definition no_client : Transport :=
  fun _ _ => ClientRaises (mkExc "ImportError" "cannot import name 'AsyncClient'" true).

(** The request is answered, and closing the client fails. *)
Definition close_fails : Transport :=
  fun _ _ => ExitRaises (Returned 200) (mkExc "RuntimeError" "Event loop is closed" true).

End Examples.

(** * Properties *)

(** ** The loop body on one event *)

Section LoopBodyFacts.

Context `{JsonModule}.

Lemma py_in_trace key j : trace_of (py_in key j) = [].
Proof. destruct j; reflexivity. Qed.

Lemma py_in_run key j r : result_of (py_in key j) = r -> py_in key j = ([], r).
Proof.
  intros <-. rewrite (surjective_pairing (py_in key j)).
  unfold trace_of, result_of. f_equal. apply (py_in_trace key j).
Qed.

Lemma validated_object items st d :
  dict_get items "step" = Some st ->
  dict_get items "data" = Some d ->
  validated (JObj items).
Proof.
  intros Hs Hd. split; cbn; rewrite ?Hs, ?Hd; reflexivity.
Qed.

(** Without a sink the body is [yield value] alone. *)
Lemma loop_body_no_sink w server_url sync_url args value :
  truthy_opt server_url = false ->
  loop_body w server_url sync_url args value = ([], Ok value).
Proof. intros Hs. unfold loop_body. rewrite Hs. reflexivity. Qed.

(** With a sink, a decoding failure is logged and the event yielded. *)
Lemma loop_body_decode_error w server_url sync_url args value msg :
  truthy_opt server_url = true ->
  json_loads (value_json_str value) = JSONDecodeError msg ->
  loop_body w server_url sync_url args value =
    ([CallJsonLoads (value_json_str value);
      Log ERROR (FailedToParse msg (value_json_str value))], Ok value).
Proof. intros Hs Hl. unfold loop_body. rewrite Hs, Hl. reflexivity. Qed.

(** With a sink, a dict without one of the keys is logged and the event
    yielded. *)
Lemma loop_body_missing_key w server_url sync_url args value items :
  truthy_opt server_url = true ->
  json_loads (value_json_str value) = Parsed (JObj items) ->
  dict_get items "step" = None \/ dict_get items "data" = None ->
  loop_body w server_url sync_url args value =
    ([CallJsonLoads (value_json_str value);
      Log ERROR (MissingKey (dict_keys items))], Ok value).
Proof.
  intros Hs Hl Hm. unfold loop_body. rewrite Hs, Hl. cbn.
  destruct (dict_get items "step") as [st|] eqn:Est; cbn.
  - destruct Hm as [Hm|Hm]; [discriminate|]. rewrite Hm. reflexivity.
  - reflexivity.
Qed.

(** With a sink, a validated event goes through correlation and dispatch. *)
Lemma loop_body_validated w server_url sync_url args value json_data :
  truthy_opt server_url = true ->
  json_loads (value_json_str value) = Parsed json_data ->
  validated json_data ->
  loop_body w server_url sync_url args value =
    (emit (CallJsonLoads (value_json_str value)) ;;;
     task_id <- resolve_task_id w args ;;
     dispatch w sync_url task_id json_data ;;;
     ret value).
Proof.
  intros Hs Hl [Hst Hd]. unfold loop_body. rewrite Hs, Hl. cbn -[py_in resolve_task_id dispatch].
  rewrite (py_in_run _ _ _ Hst), (py_in_run _ _ _ Hd).
  cbn -[resolve_task_id dispatch].
  destruct (resolve_task_id w args) as [t3 [tid|e3]]; cbn -[dispatch]; [|reflexivity].
  destruct (dispatch w sync_url tid json_data) as [t4 [[]|e4]]; reflexivity.
Qed.

(** The dispatch of a dict that has both keys. *)
Lemma dispatch_object w sync_url tid items st d :
  dict_get items "step" = Some st ->
  dict_get items "data" = Some d ->
  dispatch w sync_url tid (JObj items) =
    (if truthy tid
     then [CallTimeNs;
           CreateTask sync_url (mkPayload tid st d (Qmake (clock_ns w) 1000000000))]
     else [], Ok tt).
Proof.
  intros Hs Hd. unfold dispatch. destruct (truthy tid); [|reflexivity].
  cbn. rewrite Hs. cbn. rewrite Hd. reflexivity.
Qed.

(** A falsy task id: nothing is dispatched, whatever the JSON value. *)
Lemma dispatch_falsy w sync_url tid json_data :
  truthy tid = false -> dispatch w sync_url tid json_data = ([], Ok tt).
Proof. intros Ht. unfold dispatch. rewrite Ht. reflexivity. Qed.

(** The whole step for a dict with both keys whose correlation succeeds. *)
Lemma loop_body_mirrorable w server_url sync_url args value items st d t tid :
  truthy_opt server_url = true ->
  json_loads (value_json_str value) = Parsed (JObj items) ->
  dict_get items "step" = Some st ->
  dict_get items "data" = Some d ->
  resolve_task_id w args = (t, Ok tid) ->
  loop_body w server_url sync_url args value =
    (CallJsonLoads (value_json_str value) :: t ++
     (if truthy tid
      then [CallTimeNs;
            CreateTask sync_url (mkPayload tid st d (Qmake (clock_ns w) 1000000000))]
      else []), Ok value)%list.
Proof.
  intros Hs Hl Hst Hd Hr.
  rewrite (loop_body_validated _ _ _ _ _ _ Hs Hl (validated_object _ _ _ Hst Hd)).
  rewrite Hr. cbn -[dispatch].
  rewrite (dispatch_object _ _ _ _ _ _ Hst Hd). cbn.
  rewrite app_nil_r. reflexivity.
Qed.

(** What the body yields is the value it was given. *)
Lemma loop_body_yields_value w server_url sync_url args value v :
  result_of (loop_body w server_url sync_url args value) = Ok v -> v = value.
Proof.
  unfold loop_body. destruct (truthy_opt server_url); cbn; [|congruence].
  destruct (json_loads (value_json_str value)) as [j|msg|e]; cbn; [|congruence|congruence].
  destruct (py_in "step" j) as [t1 [[]|e1]]; cbn; try congruence.
  - destruct (py_in "data" j) as [t2 [[]|e2]]; cbn; try congruence.
    + destruct (resolve_task_id w args) as [t3 [tid|e3]]; cbn; try congruence.
      destruct (dispatch w sync_url tid j) as [t4 [[]|e4]]; cbn; congruence.
    + destruct (py_keys j) as [t3 [ks|e3]]; cbn; congruence.
  - destruct (py_keys j) as [t3 [ks|e3]]; cbn; congruence.
Qed.

End LoopBodyFacts.

(** ** Correlation *)

Section CorrelationFacts.

Lemma hasattr_true (o : pyobj) name v : o !! name = Some v -> hasattr o name = true.
Proof. intros Hv. unfold hasattr. rewrite Hv. apply bool_decide_eq_true_2. eauto. Qed.

Lemma hasattr_false (o : pyobj) name : o !! name = None -> hasattr o name = false.
Proof.
  intros Hv. unfold hasattr. rewrite Hv. apply bool_decide_eq_false_2.
  intros [v Hsome]. discriminate.
Qed.

Lemma hasattr_inv (o : pyobj) name : hasattr o name = true -> exists v, o !! name = Some v.
Proof. unfold hasattr. intros Hb. apply bool_decide_eq_true_1 in Hb. exact Hb. Qed.

(** The first positional argument is the correlation source exactly when
    it has an attribute [task_id]. *)
Lemma chat_of_Some args chat :
  chat_of args = Some chat <->
  exists rest, args = chat :: rest /\ hasattr chat "task_id" = true.
Proof.
  unfold chat_of. split.
  - destruct args as [|a rest]; [discriminate|].
    destruct (hasattr a "task_id") eqn:Ha; [|discriminate].
    intros [= ->]. eauto.
  - intros (rest & -> & ->). reflexivity.
Qed.

Lemma chat_of_None args :
  chat_of args = None <->
  args = [] \/ exists a rest, args = a :: rest /\ a !! "task_id" = None.
Proof.
  unfold chat_of. split.
  - destruct args as [|a rest]; [now left|].
    destruct (a !! "task_id") as [v|] eqn:Ea.
    + rewrite (hasattr_true _ _ _ Ea). discriminate.
    + intros _. right. eauto.
  - intros [->|(a & rest & -> & Ha)]; [reflexivity|].
    rewrite (hasattr_false _ _ Ha). reflexivity.
Qed.

Lemma resolve_no_source w args :
  chat_of args = None -> resolve_task_id w args = ([], Ok PyNone).
Proof. intros Hc. unfold resolve_task_id. rewrite Hc. reflexivity. Qed.

Section WithSource.

Variables (w : World) (args : list pyobj) (chat : pyobj) (project_id own : pyval).
Hypothesis Hchat : chat_of args = Some chat.
Hypothesis Hproject : chat !! "project_id" = Some project_id.
Hypothesis Hown : chat !! "task_id" = Some own.

Lemma resolve_lock_current task_lock cur :
  get_task_lock_if_exists w project_id = Some task_lock ->
  task_lock !! "current_task_id" = Some cur ->
  truthy cur = true ->
  resolve_task_id w args = ([CallGetTaskLock project_id], Ok cur).
Proof.
  intros Hl Hc Ht. unfold resolve_task_id, getattr.
  rewrite Hchat, Hproject. exec_simpl. rewrite Hl.
  rewrite (hasattr_true _ _ _ Hc), Hc. exec_simpl. rewrite Ht. exec_simpl.
  reflexivity.
Qed.

Lemma resolve_lock_fallback task_lock :
  get_task_lock_if_exists w project_id = Some task_lock ->
  (task_lock !! "current_task_id" = None \/
   exists cur, task_lock !! "current_task_id" = Some cur /\ truthy cur = false) ->
  resolve_task_id w args = ([CallGetTaskLock project_id], Ok own).
Proof.
  intros Hl Hc. unfold resolve_task_id, getattr.
  rewrite Hchat, Hproject. exec_simpl. rewrite Hl.
  destruct Hc as [Hc|(cur & Hc & Ht)].
  - rewrite (hasattr_false _ _ Hc). exec_simpl. rewrite Hown. reflexivity.
  - rewrite (hasattr_true _ _ _ Hc), Hc. exec_simpl. rewrite Ht. exec_simpl.
    rewrite Hown. reflexivity.
Qed.

Lemma resolve_no_lock :
  get_task_lock_if_exists w project_id = None ->
  resolve_task_id w args =
    ([CallGetTaskLock project_id; Log WARNING (TaskLockNotFound project_id)], Ok own).
Proof.
  intros Hl. unfold resolve_task_id, getattr.
  rewrite Hchat, Hproject. exec_simpl. rewrite Hl. exec_simpl.
  rewrite Hown. reflexivity.
Qed.

End WithSource.

(** The body reads the world through the task-lock registry and the clock
    only. *)
Lemma loop_body_world `{JsonModule} w w' server_url sync_url args value :
  task_locks w = task_locks w' ->
  clock_ns w = clock_ns w' ->
  loop_body w server_url sync_url args value =
  loop_body w' server_url sync_url args value.
Proof.
  destruct w as [e1 l1 c1], w' as [e2 l2 c2]. cbn. intros -> ->. reflexivity.
Qed.

End CorrelationFacts.

(** ** Traces without a given kind of effect *)

Section Quiet.

Variable kind : Effect -> bool.

Lemma quiet_ret {A} (a : A) : quiet kind (ret a).
Proof. reflexivity. Qed.

Lemma quiet_raise {A} e : quiet kind (@raise A e).
Proof. reflexivity. Qed.

Lemma quiet_emit eff : kind eff = false -> quiet kind (emit eff).
Proof.
  intros Hk. unfold quiet. cbn. rewrite Hk. reflexivity.
Qed.

Lemma quiet_bind {A B} (m : Exec A) (k : A -> Exec B) :
  quiet kind m -> (forall a, quiet kind (k a)) -> quiet kind (bind m k).
Proof.
  unfold quiet. destruct m as [t [a|e]]; cbn; intros Hm Hk; [|exact Hm].
  specialize (Hk a). destruct (k a) as [t' r]. cbn in *.
  rewrite List.filter_app, Hm, Hk. reflexivity.
Qed.

Lemma quiet_if {A} (b : bool) (m1 m2 : Exec A) :
  quiet kind m1 -> quiet kind m2 -> quiet kind (if b then m1 else m2).
Proof. destruct b; auto. Qed.

End Quiet.

Create HintDb quiet.
#[local] Hint Resolve quiet_ret quiet_raise quiet_bind quiet_if : quiet.
#[local] Hint Extern 1 (quiet _ (emit _)) => apply quiet_emit; reflexivity : quiet.
#[local] Hint Extern 1 (quiet _ (log _ _)) => apply quiet_emit; reflexivity : quiet.

Section QuietFacts.

Context `{JsonModule}.
Variable kind : Effect -> bool.

Lemma quiet_py_in key j : quiet kind (py_in key j).
Proof. destruct j; cbn; auto with quiet. Qed.

Lemma quiet_py_keys j : quiet kind (py_keys j).
Proof. destruct j; cbn; auto with quiet. Qed.

Lemma quiet_py_getitem j key : quiet kind (py_getitem j key).
Proof.
  destruct j; cbn; auto with quiet.
  destruct (dict_get items key); auto with quiet.
Qed.

Lemma quiet_getattr (o : pyobj) name : quiet kind (getattr o name).
Proof. unfold getattr. destruct (o !! name); auto with quiet. Qed.

Hint Resolve quiet_py_in quiet_py_keys quiet_py_getitem quiet_getattr : quiet.

Lemma quiet_resolve_task_id w args :
  (forall p, kind (CallGetTaskLock p) = false) ->
  (forall l m, kind (Log l m) = false) ->
  quiet kind (resolve_task_id w args).
Proof.
  intros Hk Hlog. unfold resolve_task_id.
  destruct (chat_of args) as [chat|]; [|auto with quiet].
  apply quiet_bind; [auto with quiet|]. intros pid.
  apply quiet_bind; [apply quiet_emit, Hk|]. intros _.
  destruct (get_task_lock_if_exists w pid) as [task_lock|].
  - apply quiet_bind.
    + apply quiet_if; [|auto with quiet].
      apply quiet_bind; auto with quiet.
    + intros []; auto with quiet.
  - apply quiet_bind; [apply quiet_emit, Hlog|]. auto with quiet.
Qed.

(** Without a correlation source nothing is dispatched. *)
Lemma dispatch_none w sync_url json_data : dispatch w sync_url PyNone json_data = ([], Ok tt).
Proof. reflexivity. Qed.

(** The body makes no effect of a kind that none of its calls has. *)
Lemma quiet_loop_body w server_url sync_url args value :
  (forall s, kind (CallJsonLoads s) = false) ->
  (forall p, kind (CallGetTaskLock p) = false) ->
  (forall l m, kind (Log l m) = false) ->
  kind CallTimeNs = false ->
  (forall u p, kind (CreateTask u p) = false) ->
  quiet kind (loop_body w server_url sync_url args value).
Proof.
  intros Hloads Hlock Hlog Htime Htask.
  unfold loop_body. apply quiet_if; [auto with quiet|].
  apply quiet_bind; [apply quiet_emit, Hloads|]. intros _.
  destruct (json_loads (value_json_str value)) as [j|msg|e]; [| |auto with quiet].
  2: { apply quiet_bind; [apply quiet_emit, Hlog|]. auto with quiet. }
  apply quiet_bind.
  { apply quiet_bind; [apply quiet_py_in|auto with quiet]. }
  intros no_step. apply quiet_bind.
  { apply quiet_if; [auto with quiet|].
    apply quiet_bind; [apply quiet_py_in|auto with quiet]. }
  intros missing. apply quiet_if.
  - apply quiet_bind; [apply quiet_py_keys|]. intros keys.
    apply quiet_bind; [apply quiet_emit, Hlog|]. auto with quiet.
  - apply quiet_bind; [apply quiet_resolve_task_id; assumption|]. intros tid.
    apply quiet_bind; [|auto with quiet].
    unfold dispatch. apply quiet_if; [|auto with quiet].
    apply quiet_bind; [apply quiet_py_getitem|]. intros st.
    apply quiet_bind; [apply quiet_py_getitem|]. intros d.
    apply quiet_bind; [apply quiet_emit, Htime|]. intros _.
    apply quiet_emit, Htask.
Qed.

End QuietFacts.

(** The body never reads the configuration. *)
Lemma loop_body_no_env_read `{JsonModule} w server_url sync_url args value :
  quiet is_env_read (loop_body w server_url sync_url args value).
Proof. apply quiet_loop_body; reflexivity. Qed.

(** Without a correlation source no task is created, whatever the event. *)
Lemma loop_body_no_source_no_task `{JsonModule} w server_url sync_url args value :
  chat_of args = None ->
  created_tasks (trace_of (loop_body w server_url sync_url args value)) = [].
Proof.
  intros Hc. unfold loop_body. rewrite (resolve_no_source _ _ Hc).
  destruct (truthy_opt server_url); [|reflexivity]. cbn.
  destruct (json_loads (value_json_str value)) as [j|msg|e]; [|reflexivity..].
  destruct (py_in "step" j) as [t1 r1] eqn:E1.
  pose proof (py_in_trace "step" j) as T1. rewrite E1 in T1. cbn in T1. subst t1.
  destruct (py_in "data" j) as [t2 r2] eqn:E2.
  pose proof (py_in_trace "data" j) as T2. rewrite E2 in T2. cbn in T2. subst t2.
  destruct r1 as [[]|e1]; cbn; [| |reflexivity].
  - destruct r2 as [[]|e2]; cbn; [reflexivity| |reflexivity].
    destruct j; reflexivity.
  - destruct j; reflexivity.
Qed.

(** ** The stream *)

Section StreamFacts.

Context `{JsonModule}.
Variables (server_url sync_url : option string) (args : list pyobj).

(** What the wrapped stream yields is an initial segment of what the
    wrapped generator produced: nothing is altered, duplicated or
    reordered. *)
Lemma async_for_prefix ws i up :
  yielded (async_for ws i server_url sync_url args up) `prefix_of` events_of up.
Proof.
  revert i. induction up as [| e | value rest IH]; intros i; cbn.
  - apply prefix_nil.
  - apply prefix_nil.
  - destruct (loop_body (ws (S i)) server_url sync_url args value) as [t [v|e]] eqn:E.
    + assert (v = value) as ->.
      { apply (loop_body_yields_value (ws (S i)) server_url sync_url args). now rewrite E. }
      cbn. apply prefix_cons, IH.
    + apply prefix_nil.
Qed.

(** When no event makes the body raise, the stream is the unwrapped one. *)
Lemma async_for_all_ok ws i up :
  (forall w value, In value (events_of up) ->
                   exists t, loop_body w server_url sync_url args value = (t, Ok value)) ->
  yielded (async_for ws i server_url sync_url args up) = events_of up /\
  ending (async_for ws i server_url sync_url args up) = ending_of up.
Proof.
  revert i. induction up as [| e | value rest IH]; intros i Hall; cbn; auto.
  destruct (Hall (ws (S i)) value) as [t Ht]; [now left|]. rewrite Ht. cbn.
  destruct (IH (S i)) as [IHy IHe].
  { intros w v Hv. apply Hall. now right. }
  rewrite IHy. auto.
Qed.

Lemma async_for_no_sink ws i up :
  truthy_opt server_url = false ->
  async_for ws i server_url sync_url args up = unwrapped up.
Proof.
  intros Hs. revert i. induction up as [| e | value rest IH]; intros i; cbn; auto.
  rewrite (loop_body_no_sink _ _ _ _ _ Hs), IH. reflexivity.
Qed.

Lemma async_for_no_env_read ws i up :
  List.filter is_env_read (effects (async_for ws i server_url sync_url args up)) = [].
Proof.
  revert i. induction up as [| e | value rest IH]; intros i; cbn; auto.
  pose proof (loop_body_no_env_read (ws (S i)) server_url sync_url args value) as Hq.
  unfold quiet, trace_of in Hq.
  destruct (loop_body (ws (S i)) server_url sync_url args value) as [t [v|e]]; cbn in *.
  - rewrite List.filter_app, Hq, IH. reflexivity.
  - exact Hq.
Qed.

(** Two timelines that differ in the configuration only give the same
    loop. *)
Lemma async_for_timeline ws ws' i up :
  (forall k, task_locks (ws (S k)) = task_locks (ws' (S k)) /\
             clock_ns (ws (S k)) = clock_ns (ws' (S k))) ->
  async_for ws i server_url sync_url args up =
  async_for ws' i server_url sync_url args up.
Proof.
  intros Hw. revert i. induction up as [| e | value rest IH]; intros i; cbn; auto.
  destruct (Hw i) as [Hl Hc].
  rewrite (loop_body_world _ _ server_url sync_url args value Hl Hc), IH. reflexivity.
Qed.

(** Running the created tasks between two events, with whatever outcome,
    leaves what the stream yields and how it ends as they are. *)
Lemma async_for_with_tasks_stream post sched ws i pending up :
  yielded (async_for_with_tasks post sched ws i server_url sync_url args pending up) =
    yielded (async_for ws i server_url sync_url args up) /\
  ending (async_for_with_tasks post sched ws i server_url sync_url args pending up) =
    ending (async_for ws i server_url sync_url args up).
Proof.
  revert i pending. induction up as [| e | value rest IH]; intros i pending; cbn; auto.
  destruct (loop_body (ws (S i)) server_url sync_url args value) as [t [v|e]]; cbn; auto.
  destruct (IH (S i) (if sched i then [] else (pending ++ created_tasks t)%list)) as [-> ->].
  auto.
Qed.

End StreamFacts.

(** * The properties of the specification *)

Lemma created_tasks_app t1 t2 :
  created_tasks (t1 ++ t2) = (created_tasks t1 ++ created_tasks t2)%list.
Proof. apply omap_app. Qed.

Lemma created_tasks_quiet (t : list Effect) :
  List.filter is_create_task t = [] -> created_tasks t = [].
Proof.
  induction t as [|eff t IH]; [reflexivity|]. cbn.
  destruct eff; cbn; try exact IH. discriminate.
Qed.

(** One call posts its request once when there is a client, and nothing
    when there is none. *)
Lemma send_to_api_posts post url data :
  List.filter is_client_post (trace_of (send_to_api post url data)) =
  match post url data with
  | NoClient _ => []
  | WithClient _ => [ClientPost url data]
  end.
Proof.
  unfold send_to_api, with_client.
  destruct (post url data) as [e|[[status|e] ex]]; cbn; [reflexivity| |].
  - destruct ex; reflexivity.
  - destruct (exc_is_Exception e), ex; reflexivity.
Qed.

(** The run of one call, by what the transport does. *)
Lemma send_to_api_run post url data :
  send_to_api post url data =
  match post url data with
  | NoClient e => ([], Raise e)
  | WithClient client =>
      ((ClientOpen :: ClientPost url data ::
        match post_result client with
        | Returned _ => []
        | Raised e =>
            if exc_is_Exception e
            then [Log ERROR (FailedToSync url (exc_type e) (exc_msg e))]
            else []
        end ++ [ClientClose])%list,
       match aexit client with
       | Some e => Raise e
       | None =>
           match post_result client with
           | Returned _ => Ok tt
           | Raised e => if exc_is_Exception e then Ok tt else Raise e
           end
       end)
  end.
Proof.
  unfold send_to_api, with_client.
  destruct (post url data) as [e|[[status|e] ex]]; cbn; [reflexivity..|].
  destruct (exc_is_Exception e); reflexivity.
Qed.

(** The exceptions that leave one call: the one of building or entering the
    client, the one of leaving it, and otherwise the one of the post when it
    is no instance of [Exception]. *)
Lemma send_to_api_raises_iff post url data e :
  result_of (send_to_api post url data) = Raise e <->
  post url data = NoClient e \/
  exists client,
    post url data = WithClient client /\
    (aexit client = Some e \/
     (aexit client = None /\ post_result client = Raised e /\
      exc_is_Exception e = false)).
Proof.
  rewrite send_to_api_run.
  destruct (post url data) as [e0|[r ex]]; cbn.
  - split.
    + intros [= <-]. now left.
    + intros [Hn|(client & Hc & _)]; [|discriminate]. now injection Hn as <-.
  - split.
    + intros Hr. right. eexists. split; [reflexivity|]. cbn.
      destruct ex as [e1|].
      * injection Hr as <-. now left.
      * right. split; [reflexivity|].
        destruct r as [status|e1]; [discriminate|].
        destruct (exc_is_Exception e1) eqn:He; [discriminate|].
        injection Hr as <-. auto.
    + intros [Hn|(client & [= <-] & Hc)]; [discriminate|]. cbn in Hc.
      destruct Hc as [->|(-> & -> & He)]; [reflexivity|].
      rewrite He. reflexivity.
Qed.

(** Correlation creates no task. *)
Lemma resolve_creates_no_task w args :
  created_tasks (trace_of (resolve_task_id w args)) = [].
Proof. apply created_tasks_quiet, quiet_resolve_task_id; reflexivity. Qed.

Section Mirroring.

Context `{JsonModule}.

(** C3: with a sink configured, an event whose candidate text decodes to an
    object with the keys [step] and [data], and for which correlation gives a
    truthy task identifier, is yielded, and exactly one task is created for
    it: a request to the sink URL followed by [/chat/steps], whose body
    carries the task identifier, the two decoded fields and the clock in
    nanoseconds divided by 10^9.  Run by the event loop, the task posts that
    one request and no other; it posts none when no client can be built. *)
Theorem mirrorable_event_dispatches_once w s args value items st d t tid post :
  truthy_opt (Some s) = true ->
  json_loads (value_json_str value) = Parsed (JObj items) ->
  dict_get items "step" = Some st ->
  dict_get items "data" = Some d ->
  resolve_task_id w args = (t, Ok tid) ->
  truthy tid = true ->
  let m := loop_body w (Some s) (sync_url_of (Some s)) args value in
  let url := Some (s +:+ "/chat/steps") in
  let payload := mkPayload tid st d (Qmake (clock_ns w) 1000000000) in
  result_of m = Ok value /\
  created_tasks (trace_of m) = [(url, payload)] /\
  List.filter is_client_post (run_tasks post (created_tasks (trace_of m))) =
    match post url payload with
    | NoClient _ => []
    | WithClient _ => [ClientPost url payload]
    end.
Proof.
  intros Hs Hl Hst Hd Hr Ht m url payload.
  assert (Hm : m = ((CallJsonLoads (value_json_str value) :: t ++
                     [CallTimeNs; CreateTask url payload])%list, Ok value)).
  { unfold m. rewrite (loop_body_mirrorable _ _ _ _ _ _ _ _ _ _ Hs Hl Hst Hd Hr), Ht.
    unfold sync_url_of. rewrite Hs. reflexivity. }
  assert (Hc : created_tasks (trace_of m) = [(url, payload)]).
  { rewrite Hm. unfold trace_of. cbn [fst].
    change (CallJsonLoads (value_json_str value) :: t ++ [CallTimeNs; CreateTask url payload])%list
      with ([CallJsonLoads (value_json_str value)] ++ t ++ [CallTimeNs; CreateTask url payload])%list.
    rewrite !created_tasks_app.
    pose proof (resolve_creates_no_task w args) as Hq. rewrite Hr in Hq. unfold trace_of in Hq. cbn [fst] in Hq.
    rewrite Hq. reflexivity. }
  split; [rewrite Hm; reflexivity|]. split; [exact Hc|].
  rewrite Hc. unfold run_tasks, run_task. cbn [flat_map fst snd].
  rewrite app_nil_r. apply send_to_api_posts.
Qed.



(** C4: for an event that decodes to an object with the keys [step] and
    [data], and a correlation source with a project identifier: when the
    task lock of the project exists and its [current_task_id] is present and
    truthy, that is the task identifier dispatched; when the lock exists but
    the field is absent or falsy, and when no lock exists, the task
    identifier is the source's own [task_id], which every dispatch made for
    the event carries; without a lock a warning is logged as well. *)
Theorem dispatched_task_id_follows_task_lock w s args chat project_id own value items st d :
  truthy_opt (Some s) = true ->
  json_loads (value_json_str value) = Parsed (JObj items) ->
  dict_get items "step" = Some st ->
  dict_get items "data" = Some d ->
  chat_of args = Some chat ->
  chat !! "project_id" = Some project_id ->
  chat !! "task_id" = Some own ->
  let m := loop_body w (Some s) (sync_url_of (Some s)) args value in
  let dispatched := map (fun task : Task => task_id (snd task)) (created_tasks (trace_of m)) in
  (forall task_lock cur,
      get_task_lock_if_exists w project_id = Some task_lock ->
      task_lock !! "current_task_id" = Some cur ->
      truthy cur = true ->
      result_of (resolve_task_id w args) = Ok cur /\ dispatched = [cur]) /\
  (forall task_lock,
      get_task_lock_if_exists w project_id = Some task_lock ->
      (task_lock !! "current_task_id" = None \/
       exists cur, task_lock !! "current_task_id" = Some cur /\ truthy cur = false) ->
      result_of (resolve_task_id w args) = Ok own /\
      dispatched = if truthy own then [own] else []) /\
  (get_task_lock_if_exists w project_id = None ->
      In (Log WARNING (TaskLockNotFound project_id)) (trace_of m) /\
      result_of (resolve_task_id w args) = Ok own /\
      dispatched = if truthy own then [own] else []).
Proof.
  intros Hs Hl Hst Hd Hchat Hpid Hown m dispatched.
  assert (Hgen : forall t tid,
             resolve_task_id w args = (t, Ok tid) ->
             trace_of m = (CallJsonLoads (value_json_str value) :: t ++
                           (if truthy tid
                            then [CallTimeNs;
                                  CreateTask (sync_url_of (Some s))
                                    (mkPayload tid st d (Qmake (clock_ns w) 1000000000))]
                            else []))%list /\
             dispatched = if truthy tid then [tid] else []).
  { intros t tid Hr.
    assert (Hm : trace_of m =
                 (CallJsonLoads (value_json_str value) :: t ++
                  (if truthy tid
                   then [CallTimeNs;
                         CreateTask (sync_url_of (Some s))
                           (mkPayload tid st d (Qmake (clock_ns w) 1000000000))]
                   else []))%list).
    { unfold m. rewrite (loop_body_mirrorable _ _ _ _ _ _ _ _ _ _ Hs Hl Hst Hd Hr).
      reflexivity. }
    split; [exact Hm|]. unfold dispatched. rewrite Hm.
    change (CallJsonLoads (value_json_str value) :: ?t1)%list
      with ([CallJsonLoads (value_json_str value)] ++ t1)%list.
    rewrite !created_tasks_app.
    pose proof (resolve_creates_no_task w args) as Hq.
    rewrite Hr in Hq. unfold trace_of in Hq. cbn [fst] in Hq. rewrite Hq.
    destruct (truthy tid); reflexivity. }
  split; [|split].
  - intros task_lock cur Hlock Hcur Ht.
    pose proof (resolve_lock_current w args chat project_id Hchat Hpid
                  task_lock cur Hlock Hcur Ht) as Hr.
    destruct (Hgen _ _ Hr) as [_ Hdis]. rewrite Ht in Hdis.
    rewrite Hr. auto.
  - intros task_lock Hlock Hcur.
    pose proof (resolve_lock_fallback w args chat project_id own Hchat Hpid Hown
                  task_lock Hlock Hcur) as Hr.
    destruct (Hgen _ _ Hr) as [_ Hdis]. rewrite Hr. auto.
  - intros Hlock.
    pose proof (resolve_no_lock w args chat project_id own Hchat Hpid Hown Hlock) as Hr.
    destruct (Hgen _ _ Hr) as [Htr Hdis]. rewrite Hr. split; [|auto].
    rewrite Htr. simpl. auto.
Qed.

(** C10: with a sink configured, an event that decoded and passed the test
    for [step] and [data] but whose resolved task identifier is falsy (the
    empty string, or [None] when there is no correlation source) is yielded
    and no task is created for it; a task is created only for a truthy
    task identifier. *)
Theorem falsy_task_id_skips_dispatch w server_url sync_url args value json_data t tid :
  truthy_opt server_url = true ->
  json_loads (value_json_str value) = Parsed json_data ->
  validated json_data ->
  resolve_task_id w args = (t, Ok tid) ->
  let m := loop_body w server_url sync_url args value in
  (truthy tid = false ->
     m = (CallJsonLoads (value_json_str value) :: t, Ok value) /\
     created_tasks (trace_of m) = []) /\
  (created_tasks (trace_of m) <> [] -> truthy tid = true) /\
  (chat_of args = None -> tid = PyNone /\ truthy tid = false).
Proof.
  intros Hs Hl Hv Hr m.
  assert (Hfalsy : truthy tid = false ->
                   m = (CallJsonLoads (value_json_str value) :: t, Ok value) /\
                   created_tasks (trace_of m) = []).
  { intros Ht.
    assert (Hm : m = (CallJsonLoads (value_json_str value) :: t, Ok value)).
    { unfold m. rewrite (loop_body_validated _ _ _ _ _ _ Hs Hl Hv), Hr.
      cbn -[dispatch]. rewrite (dispatch_falsy _ _ _ _ Ht). cbn.
      rewrite app_nil_r. reflexivity. }
    split; [exact Hm|]. rewrite Hm. unfold trace_of. cbn [fst].
    pose proof (resolve_creates_no_task w args) as Hq.
    rewrite Hr in Hq. unfold trace_of in Hq. cbn [fst] in Hq.
    change (created_tasks ([CallJsonLoads (value_json_str value)] ++ t) = []).
    rewrite created_tasks_app, Hq. reflexivity. }
  split; [exact Hfalsy|]. split.
  - intros Hne. destruct (truthy tid) eqn:Ht; [reflexivity|].
    destruct (Hfalsy eq_refl) as [_ Hnone]. contradiction.
  - intros Hc. rewrite (resolve_no_source _ _ Hc) in Hr.
    injection Hr as <- <-. auto.
Qed.

(** C6: when no sink URL is configured (the option is unset or empty), the
    body of the loop is [yield value] and nothing else: no call to the JSON
    decoder, to the task-lock lookup, to the clock or to the logger, and no
    task.  The wrapped stream yields what the unwrapped stream yields and
    ends as it ends, and its only effect is the one reading of the
    configuration. *)
Theorem no_sink_is_pass_through w_dec func ws args kwargs :
  truthy_opt (env (ws O) "SERVER_URL") = false ->
  (forall w sync_url value,
      loop_body w (env (ws O) "SERVER_URL") sync_url args value = ([], Ok value)) /\
  sync_step w_dec func ws args kwargs =
    mkRun (yielded (unwrapped (func args kwargs)))
          [CallEnv "SERVER_URL"]
          (ending (unwrapped (func args kwargs))).
Proof.
  intros Hs. split.
  - intros w sync_url value. apply loop_body_no_sink, Hs.
  - unfold sync_step, wrapper. rewrite (async_for_no_sink _ _ _ _ _ _ Hs). reflexivity.
Qed.

(** C7 (as amended): the first positional argument is the correlation source
    exactly when it has an attribute [task_id].  When there is no positional
    argument or the first one has no [task_id] (with or without
    [project_id]), no task identifier is resolved, no lookup and no dispatch
    is made for any event, and an event that decoded and passed the test for
    [step] and [data] is yielded. *)
Theorem correlation_source_has_task_id w server_url sync_url args value :
  chat_of args = None ->
  (args = [] \/ exists a rest, args = a :: rest /\ a !! "task_id" = None) /\
  (forall chat' args', chat_of args' = Some chat' <->
                       exists rest, args' = chat' :: rest /\ hasattr chat' "task_id" = true) /\
  resolve_task_id w args = ([], Ok PyNone) /\
  created_tasks (trace_of (loop_body w server_url sync_url args value)) = [] /\
  (forall json_data,
      truthy_opt server_url = true ->
      json_loads (value_json_str value) = Parsed json_data ->
      validated json_data ->
      loop_body w server_url sync_url args value =
        ([CallJsonLoads (value_json_str value)], Ok value)).
Proof.
  intros Hc. split; [apply chat_of_None, Hc|].
  split; [intros chat' args'; apply chat_of_Some|].
  split; [apply resolve_no_source, Hc|].
  split; [apply loop_body_no_source_no_task, Hc|].
  intros json_data Hs Hl Hv.
  rewrite (loop_body_validated _ _ _ _ _ _ Hs Hl Hv), (resolve_no_source _ _ Hc).
  reflexivity.
Qed.

(** C8 (as amended): the sink base URL is read from the configuration once
    per call of the wrapped function, when the body of [wrapper] starts, and
    not when the decorator is applied: the world of the decoration has no
    influence, and two timelines with the same configuration at that start
    (and the same task locks and clock later on) give the same run, whatever
    the configuration becomes afterwards. *)
Theorem server_url_is_read_at_each_call w_dec w_dec' func ws ws' args kwargs :
  environ (ws O) = environ (ws' O) ->
  (forall k, task_locks (ws (S k)) = task_locks (ws' (S k)) /\
             clock_ns (ws (S k)) = clock_ns (ws' (S k))) ->
  sync_step w_dec func ws args kwargs = sync_step w_dec' func ws' args kwargs /\
  List.filter is_env_read (effects (sync_step w_dec func ws args kwargs)) =
    [CallEnv "SERVER_URL"].
Proof.
  intros He Hw. unfold sync_step, wrapper, env. split.
  - rewrite He, (async_for_timeline _ _ _ ws ws' _ _ Hw). reflexivity.
  - cbn. rewrite async_for_no_env_read. reflexivity.
Qed.

(** C5 (as amended): whatever the URL and the payload, an instance of
    [Exception] raised by the post (as every transport error is) does not
    leave [send_to_api]: the call logs it once with the name of its class and
    its message, closes the client and returns.  An exception leaves the
    call only when the post raises one that is no instance of [Exception],
    or when building, entering or leaving the client raises; those are
    outside of the [try].  Whatever the transport does and whenever the
    created tasks run, the stream yields the same events and ends the same
    way. *)
Theorem send_to_api_catches_post_errors post url data :
  (forall e, post url data = PostRaises e -> exc_is_Exception e = true ->
     send_to_api post url data =
       ([ClientOpen; ClientPost url data;
         Log ERROR (FailedToSync url (exc_type e) (exc_msg e)); ClientClose], Ok tt)) /\
  (forall e, result_of (send_to_api post url data) = Raise e <->
     post url data = NoClient e \/
     exists client,
       post url data = WithClient client /\
       (aexit client = Some e \/
        (aexit client = None /\ post_result client = Raised e /\
         exc_is_Exception e = false))) /\
  (forall sched ws i server_url sync_url args pending up,
      yielded (async_for_with_tasks post sched ws i server_url sync_url args pending up) =
        yielded (async_for ws i server_url sync_url args up) /\
      ending (async_for_with_tasks post sched ws i server_url sync_url args pending up) =
        ending (async_for ws i server_url sync_url args up)).
Proof.
  split; [|split].
  - intros e Hp He. rewrite send_to_api_run, Hp. cbn. rewrite He. reflexivity.
  - intros e. apply send_to_api_raises_iff.
  - intros. apply async_for_with_tasks_stream.
Qed.

(** Correlation succeeds when there is no source, or when the source has a
    [project_id]. *)
Lemma resolve_task_id_ok w args :
  (forall chat, chat_of args = Some chat -> is_Some (chat !! "project_id")) ->
  exists t tid, resolve_task_id w args = (t, Ok tid).
Proof.
  intros Hp. destruct (chat_of args) as [chat|] eqn:Hc.
  - destruct (Hp chat eq_refl) as [project_id Hpid].
    destruct (proj1 (chat_of_Some args chat) Hc) as (rest & -> & Ha).
    destruct (hasattr_inv _ _ Ha) as [own Hown].
    destruct (get_task_lock_if_exists w project_id) as [task_lock|] eqn:Hl.
    + destruct (task_lock !! "current_task_id") as [cur|] eqn:Hcur.
      * destruct (truthy cur) eqn:Ht.
        -- do 2 eexists. eapply resolve_lock_current; eauto.
        -- do 2 eexists. eapply resolve_lock_fallback; eauto.
      * do 2 eexists. eapply resolve_lock_fallback; eauto.
    + do 2 eexists. eapply resolve_no_lock; eauto.
  - do 2 eexists. apply resolve_no_source, Hc.
Qed.

Lemma loop_body_expected_event w server_url sync_url args value :
  (forall chat, chat_of args = Some chat -> is_Some (chat !! "project_id")) ->
  expected_event value ->
  exists t, loop_body w server_url sync_url args value = (t, Ok value).
Proof.
  intros Hp Hev. destruct (truthy_opt server_url) eqn:Hs.
  2: { eexists. apply loop_body_no_sink, Hs. }
  destruct Hev as [[msg Hl]|[items Hl]].
  - eexists. apply loop_body_decode_error; eauto.
  - destruct (dict_get items "step") as [st|] eqn:Hst.
    + destruct (dict_get items "data") as [d|] eqn:Hd.
      * destruct (resolve_task_id_ok w args Hp) as (t & tid & Hr).
        eexists. eapply loop_body_mirrorable; eauto.
      * eexists. eapply loop_body_missing_key; eauto.
    + eexists. eapply loop_body_missing_key; eauto.
Qed.

(** X2: on a stream of such events, and with a correlation source that has
    a [project_id] if there is one, the wrapped stream is the unwrapped one:
    same events, same order, same end. *)
Lemma wrapper_faithful_on_expected_events func ws args kwargs :
  (forall chat, chat_of args = Some chat -> is_Some (chat !! "project_id")) ->
  (forall value, In value (events_of (func args kwargs)) -> expected_event value) ->
  yielded (wrapper func ws args kwargs) = events_of (func args kwargs) /\
  ending (wrapper func ws args kwargs) = ending_of (func args kwargs).
Proof.
  intros Hp Hev. unfold wrapper. cbn. apply async_for_all_ok.
  intros w value Hin. apply loop_body_expected_event; auto.
Qed.

(** X1: the wrapped stream never yields anything but an initial segment of
    the unwrapped one. *)
Lemma wrapper_yields_prefix func ws args kwargs :
  yielded (wrapper func ws args kwargs) `prefix_of` events_of (func args kwargs).
Proof. unfold wrapper. cbn. apply async_for_prefix. Qed.

End Mirroring.

(** C9: when tracing is disabled (the package is missing or its [init]
    fails), [trace] with any arguments returns the function it is given. *)
Theorem trace_is_noop_when_disabled (Callable : Type) (pkg : option (Traceroot.Package Callable))
        (deco_args : Traceroot.DecoArgs) (f : Callable) :
  Traceroot.is_enabled Callable (Traceroot.load Callable pkg) = false ->
  Traceroot.trace Callable (Traceroot.load Callable pkg) deco_args f = f.
Proof.
  unfold Traceroot.load. destruct pkg as [p|]; [|reflexivity].
  destruct (Traceroot.init Callable p); [discriminate|reflexivity].
Qed.

(** * Further properties of [sync_step] *)

Section StreamComposition.

Context `{JsonModule}.
Variables (server_url sync_url : option string) (args : list pyobj).

(** The run on a stream in two parts, from the runs on the parts. *)
Lemma async_for_split ws i events tail :
  async_for ws i server_url sync_url args (followed_by events tail) =
  let r1 := async_for ws i server_url sync_url args (followed_by events UStop) in
  match ending r1 with
  | Exhausted =>
      let r2 := async_for ws (i + length events) server_url sync_url args tail in
      mkRun (yielded r1 ++ yielded r2) (effects r1 ++ effects r2) (ending r2)
  | Failed _ => r1
  end.
Proof.
  unfold followed_by. revert i. induction events as [|value events IH]; intros i; cbn.
  - rewrite Nat.add_0_r. destruct (async_for ws i server_url sync_url args tail). reflexivity.
  - destruct (loop_body (ws (S i)) server_url sync_url args value) as [t [v|e]]; cbn; [|reflexivity].
    rewrite (IH (S i)).
    destruct (async_for ws (S i) server_url sync_url args (fold_right UNext UStop events))
      as [y1 e1 [|ex]]; cbn.
    + rewrite <- Nat.add_succ_comm, <- app_assoc. reflexivity.
    + reflexivity.
Qed.

(** X7: the loop keeps nothing from one event to the next: a stream in two
    parts is processed as the first part, then, if that part came to its
    end, the second part at the later positions of the timeline. *)
Theorem async_for_followed_by ws i events tail :
  async_for ws i server_url sync_url args (followed_by events tail) =
  let r1 := async_for ws i server_url sync_url args (followed_by events UStop) in
  match ending r1 with
  | Exhausted =>
      let r2 := async_for ws (i + length events) server_url sync_url args tail in
      mkRun (yielded r1 ++ yielded r2) (effects r1 ++ effects r2) (ending r2)
  | Failed _ => r1
  end.
Proof. exact (async_for_split ws i events tail). Qed.

End StreamComposition.

Section TaskFacts.

Context `{JsonModule}.

Lemma py_getitem_run j key : exists r, py_getitem j key = ([], r).
Proof.
  destruct j; cbn; eauto. destruct (dict_get items key); cbn; eauto.
Qed.

Lemma py_keys_run j : exists r, py_keys j = ([], r).
Proof. destruct j; cbn; eauto. Qed.

(** What [dispatch] comes to: nothing for a falsy identifier, an exception of
    the subscripts, or the clock reading and the one task. *)
Lemma dispatch_run w sync_url tid j :
  dispatch w sync_url tid j = ([], Ok tt) \/
  (exists e, dispatch w sync_url tid j = ([], Raise e)) \/
  (exists payload,
      truthy tid = true /\ task_id payload = tid /\
      dispatch w sync_url tid j = ([CallTimeNs; CreateTask sync_url payload], Ok tt)).
Proof.
  unfold dispatch. destruct (truthy tid); [|left; reflexivity].
  destruct (py_getitem_run j "step") as [[st|e4] Hst]; rewrite Hst; cbn -[py_getitem].
  2: { right. left. eauto. }
  destruct (py_getitem_run j "data") as [[d|e5] Hd]; rewrite Hd; cbn.
  2: { right. left. eauto. }
  right. right. eexists. split; [reflexivity|]. split; [|reflexivity]. reflexivity.
Qed.

(** One event creates at most one task; a task goes to [sync_url], carries
    a truthy task identifier, and its event is yielded. *)
Lemma loop_body_tasks w server_url sync_url args value :
  let m := loop_body w server_url sync_url args value in
  created_tasks (trace_of m) = [] \/
  exists payload,
    created_tasks (trace_of m) = [(sync_url, payload)] /\
    truthy (task_id payload) = true /\
    result_of m = Ok value.
Proof.
  cbv zeta. unfold loop_body.
  destruct (truthy_opt server_url); [|left; reflexivity]. cbn [negb].
  destruct (json_loads (value_json_str value)) as [j|msg|e]; [|left; reflexivity..].
  destruct (py_in "step" j) as [t1 r1] eqn:E1.
  pose proof (py_in_trace "step" j) as T1. rewrite E1 in T1. cbn in T1. subst t1.
  destruct (py_in "data" j) as [t2 r2] eqn:E2.
  pose proof (py_in_trace "data" j) as T2. rewrite E2 in T2. cbn in T2. subst t2.
  destruct (py_keys_run j) as [rk Hk].
  destruct r1 as [[]|e1]; [| |left; reflexivity].
  2: { left. cbn -[py_keys]. rewrite Hk. destruct rk; reflexivity. }
  destruct r2 as [[]|e2]; [| |left; reflexivity].
  2: { left. cbn -[py_keys]. rewrite Hk. destruct rk; reflexivity. }
  pose proof (resolve_creates_no_task w args) as Hq.
  destruct (resolve_task_id w args) as [t3 [tid|e3]].
  2: { left. cbn. exact Hq. }
  unfold trace_of in Hq. cbn [fst] in Hq.
  cbn -[dispatch created_tasks].
  assert (Htasks : forall t4, created_tasks (CallJsonLoads (value_json_str value) :: t3 ++ t4)
                              = created_tasks t4).
  { intros t4.
    change (CallJsonLoads (value_json_str value) :: t3 ++ t4)%list
      with ([CallJsonLoads (value_json_str value)] ++ t3 ++ t4)%list.
    rewrite !created_tasks_app, Hq. reflexivity. }
  destruct (dispatch_run w sync_url tid j) as [Hd|[[e Hd]|(payload & Ht & Hid & Hd)]];
    rewrite Hd; cbn -[created_tasks]; unfold trace_of; cbn [fst]; rewrite Htasks.
  - left. reflexivity.
  - left. reflexivity.
  - right. exists payload. rewrite Hid. auto.
Qed.

Variables (server_url sync_url : option string) (args : list pyobj).

Lemma async_for_tasks ws i up :
  let r := async_for ws i server_url sync_url args up in
  Forall (fun task : Task => fst task = sync_url /\ truthy (task_id (snd task)) = true)
         (created_tasks (effects r)) /\
  (length (created_tasks (effects r)) <= length (yielded r))%nat.
Proof.
  cbv zeta. revert i. induction up as [| e | value rest IH]; intros i; cbn.
  - split; [constructor|lia].
  - split; [constructor|lia].
  - pose proof (loop_body_tasks (ws (S i)) server_url sync_url args value) as Hstep.
    cbv zeta in Hstep. unfold trace_of, result_of in Hstep.
    destruct (loop_body (ws (S i)) server_url sync_url args value) as [t [v|e]];
      cbn [fst snd] in Hstep; cbn [yielded effects].
    + destruct (IH (S i)) as [IHall IHlen].
      rewrite created_tasks_app, length_app. cbn [length].
      destruct Hstep as [->|(payload & -> & Ht & _)]; cbn [length app].
      * split; [exact IHall|lia].
      * split; [|lia]. constructor; [split; [reflexivity|exact Ht]|exact IHall].
    + destruct Hstep as [->|(payload & _ & _ & Hres)]; [|discriminate].
      split; [constructor|cbn; lia].
Qed.

End TaskFacts.

Section WrapperExtras.

Context `{JsonModule}.

(** X5: every task created during a call of the wrapped function goes to the
    configured sink URL followed by [/chat/steps] and carries a truthy task
    identifier, and there are never more tasks than events yielded: an event
    is mirrored at most once, and only if it is also delivered. *)
Theorem wrapper_tasks_are_well_formed func ws args kwargs :
  let r := wrapper func ws args kwargs in
  Forall (fun task : Task =>
            (exists s, env (ws O) "SERVER_URL" = Some s /\ s <> EmptyString /\
                       fst task = Some (s +:+ "/chat/steps")) /\
            truthy (task_id (snd task)) = true)
         (created_tasks (effects r)) /\
  (length (created_tasks (effects r)) <= length (yielded r))%nat.
Proof.
  cbv zeta. unfold wrapper. cbn [effects yielded].
  change (created_tasks (CallEnv "SERVER_URL" :: ?t)) with (created_tasks t).
  destruct (truthy_opt (env (ws O) "SERVER_URL")) eqn:Hs.
  - destruct (async_for_tasks (env (ws O) "SERVER_URL")
                (sync_url_of (env (ws O) "SERVER_URL")) args ws O (func args kwargs))
      as [Hall Hlen].
    split; [|exact Hlen].
    eapply Forall_impl; [exact Hall|]. cbn beta. intros task [Hurl Ht]. split; [|exact Ht].
    unfold sync_url_of in Hurl. rewrite Hs in Hurl.
    destruct (env (ws O) "SERVER_URL") as [s|]; [|discriminate].
    exists s. split; [reflexivity|]. split; [|exact Hurl].
    intros ->. discriminate.
  - rewrite (async_for_no_sink _ _ _ _ _ _ Hs). cbn. split; [constructor|lia].
Qed.

(** X4: after an event on which the body raises, nothing of the stream is
    consumed or processed: the run is the same whatever would have followed,
    it yields events from before that one only, and it does not end
    normally. *)
Theorem wrapper_stops_at_first_raise func func' ws args kwargs events bad rest rest' e :
  func args kwargs = followed_by events (UNext bad rest) ->
  func' args kwargs = followed_by events (UNext bad rest') ->
  result_of (loop_body (ws (S (length events))) (env (ws O) "SERVER_URL")
               (sync_url_of (env (ws O) "SERVER_URL")) args bad) = Raise e ->
  wrapper func ws args kwargs = wrapper func' ws args kwargs /\
  yielded (wrapper func ws args kwargs) `prefix_of` events /\
  ending (wrapper func ws args kwargs) <> Exhausted.
Proof.
  intros Hf Hf' Hbad. unfold wrapper. rewrite Hf, Hf'.
  set (su := env (ws O) "SERVER_URL") in *. set (syu := sync_url_of su) in *.
  rewrite (async_for_split su syu args ws O events (UNext bad rest)),
    (async_for_split su syu args ws O events (UNext bad rest')). cbv zeta.
  pose proof (async_for_prefix su syu args ws O (followed_by events UStop)) as Hpre.
  assert (Hev : events_of (followed_by events UStop) = events).
  { clear. unfold followed_by. induction events as [|v l IH]; cbn; [reflexivity|].
    now rewrite IH. }
  rewrite Hev in Hpre.
  destruct (async_for ws O su syu args (followed_by events UStop)) as [y1 e1 [|ex]];
    cbn [ending yielded effects] in *.
  - cbn [async_for Nat.add].
    destruct (loop_body (ws (S (length events))) su syu args bad) as [t [v|e']];
      cbn in Hbad; [discriminate|].
    cbn. rewrite app_nil_r. split; [reflexivity|]. split; [exact Hpre|discriminate].
  - split; [reflexivity|]. split; [exact Hpre|discriminate].
Qed.

End WrapperExtras.

(** ** Further properties of [send_to_api] *)

Section SendFacts.

Variables (post : Transport) (url : option string) (data : MirroredPayload).

(** X9: whatever the transport does, one call posts at most one request
    (there is no retry), and none when no client can be built or entered:
    the exception then leaves the call with nothing done.  When there is a
    client, the call posts exactly one request and leaves the client exactly
    once, as the last thing it does, also when an exception leaves the call.
    The exceptions that leave it are the one of building or entering the
    client, the one of leaving it, and the one of the post when it is no
    instance of [Exception]. *)
Theorem send_to_api_posts_at_most_once_and_closes :
  let t := trace_of (send_to_api post url data) in
  (length (posted t) <= 1)%nat /\
  (forall e, post url data = NoClient e -> send_to_api post url data = ([], Raise e)) /\
  (forall client, post url data = WithClient client ->
     posted t = [(url, data)] /\
     List.filter is_client_open t = [ClientOpen] /\
     List.filter is_client_close t = [ClientClose] /\
     last t = Some ClientClose) /\
  (forall e, result_of (send_to_api post url data) = Raise e <->
     post url data = NoClient e \/
     exists client,
       post url data = WithClient client /\
       (aexit client = Some e \/
        (aexit client = None /\ post_result client = Raised e /\
         exc_is_Exception e = false))).
Proof.
  cbv zeta. split; [|split; [|split]].
  - rewrite send_to_api_run.
    destruct (post url data) as [e0|[[status|e0] ex]]; cbn; [lia..|].
    destruct (exc_is_Exception e0); cbn; lia.
  - intros e Hp. rewrite send_to_api_run, Hp. reflexivity.
  - intros client Hp. rewrite send_to_api_run, Hp.
    destruct client as [[status|e0] ex]; cbn.
    + repeat split; reflexivity.
    + destruct (exc_is_Exception e0); cbn; repeat split; reflexivity.
  - intros e. apply send_to_api_raises_iff.
Qed.

(** X10: a record is logged exactly when the post raises an instance of
    [Exception]; a response is never looked at, so a response with an error
    status leaves no record. *)
Theorem send_to_api_logs_only_raised_errors :
  let t := trace_of (send_to_api post url data) in
  (forall e, post url data = PostRaises e -> exc_is_Exception e = true ->
             List.filter is_log t = [Log ERROR (FailedToSync url (exc_type e) (exc_msg e))]) /\
  (forall e, post url data = PostRaises e -> exc_is_Exception e = false ->
             List.filter is_log t = []) /\
  (forall status, post url data = Responds status ->
                  send_to_api post url data = ([ClientOpen; ClientPost url data; ClientClose], Ok tt)).
Proof.
  cbv zeta. rewrite send_to_api_run. split; [|split].
  - intros e -> He. cbn. rewrite He. reflexivity.
  - intros e -> He. cbn. rewrite He. reflexivity.
  - intros status ->. reflexivity.
Qed.

End SendFacts.

(** ** The created tasks under the event loop *)

Section LoopFacts.

Context `{JsonModule}.

Lemma posted_app t1 t2 : posted (t1 ++ t2) = (posted t1 ++ posted t2)%list.
Proof. apply omap_app. Qed.

Lemma posted_quiet (t : list Effect) :
  List.filter is_client_post t = [] -> posted t = [].
Proof.
  induction t as [|eff t IH]; [reflexivity|]. cbn.
  destruct eff; cbn; try exact IH. discriminate.
Qed.

(** The body posts nothing itself. *)
Lemma loop_body_posts_nothing w server_url sync_url args value :
  posted (trace_of (loop_body w server_url sync_url args value)) = [].
Proof. apply posted_quiet, quiet_loop_body; reflexivity. Qed.

(** Each task that is run and gets a client posts its own request, once;
    a task that gets none posts nothing. *)
Lemma posted_run_tasks post tasks :
  posted (run_tasks post tasks) = List.filter (gets_client post) tasks.
Proof.
  induction tasks as [|[url payload] tasks IH]; [reflexivity|].
  unfold run_tasks in *. cbn [flat_map]. rewrite posted_app, IH.
  unfold run_task. cbn [fst snd List.filter]. unfold gets_client at 2. cbn [fst snd].
  rewrite send_to_api_run.
  destruct (post url payload) as [e|[[status|e] ex]]; cbn; [reflexivity..|].
  destruct (exc_is_Exception e); reflexivity.
Qed.

Lemma filter_incl_length {A} (f : A -> bool) (l : list A) :
  (length (List.filter f l) <= length l)%nat.
Proof. induction l as [|x l IH]; cbn; [lia|]. destruct (f x); cbn; lia. Qed.

Variables (server_url sync_url : option string) (args : list pyobj).

Lemma async_for_with_tasks_posted post sched ws i pending up :
  posted (effects (async_for_with_tasks post sched ws i server_url sync_url args pending up))
    `prefix_of`
  List.filter (gets_client post)
    (pending ++ created_tasks (effects (async_for ws i server_url sync_url args up)))%list.
Proof.
  revert i pending. induction up as [| e | value rest IH]; intros i pending; cbn [async_for_with_tasks async_for].
  - apply prefix_nil.
  - apply prefix_nil.
  - pose proof (loop_body_posts_nothing (ws (S i)) server_url sync_url args value) as Hp.
    unfold trace_of in Hp.
    destruct (loop_body (ws (S i)) server_url sync_url args value) as [t [v|e]];
      cbn [fst] in Hp; cbn [effects].
    + rewrite !posted_app, Hp, created_tasks_app. cbn [app].
      destruct (sched i).
      * rewrite posted_run_tasks, app_assoc, (List.filter_app _ (pending ++ created_tasks t)).
        apply prefix_app, (IH (S i) []).
      * cbn [posted omap app]. rewrite app_assoc. apply IH.
    + rewrite Hp. apply prefix_nil.
Qed.

(** When the loop runs the pending tasks after every event, each task
    created that gets a client is posted. *)
Lemma async_for_with_tasks_eager post ws i up :
  posted (effects (async_for_with_tasks post (fun _ => true) ws i server_url sync_url args [] up))
  = List.filter (gets_client post)
      (created_tasks (effects (async_for ws i server_url sync_url args up))).
Proof.
  revert i. induction up as [| e | value rest IH]; intros i; cbn [async_for_with_tasks async_for]; auto.
  pose proof (loop_body_posts_nothing (ws (S i)) server_url sync_url args value) as Hp.
  pose proof (loop_body_tasks (ws (S i)) server_url sync_url args value) as Ht.
  cbv zeta in Ht. unfold trace_of, result_of in Hp, Ht.
  destruct (loop_body (ws (S i)) server_url sync_url args value) as [t [v|e]];
    cbn [fst snd] in Hp, Ht; cbn [effects].
  - rewrite !posted_app, Hp, created_tasks_app. cbn [app].
    rewrite posted_run_tasks, (IH (S i)), List.filter_app. reflexivity.
  - rewrite Hp. destruct Ht as [->|(payload & _ & _ & Hres)]; [reflexivity|discriminate].
Qed.

(** X11: under the event loop, whenever it lets the pending tasks run: every
    request posted belongs to a task created for an event of this stream,
    there are never more requests than tasks, and when the loop runs the
    pending tasks after every event, the requests posted are those of the
    tasks created that get a client, in the order of their creation: a task
    for which no client can be built or entered posts nothing. *)
Theorem posts_come_from_created_tasks post sched ws i up :
  let plain := async_for ws i server_url sync_url args up in
  let looped := async_for_with_tasks post sched ws i server_url sync_url args [] up in
  (forall task, In task (posted (effects looped)) -> In task (created_tasks (effects plain))) /\
  (length (posted (effects looped)) <= length (created_tasks (effects plain)))%nat /\
  posted (effects (async_for_with_tasks post (fun _ => true) ws i
                     server_url sync_url args [] up)) =
    List.filter (gets_client post) (created_tasks (effects plain)).
Proof.
  cbv zeta. pose proof (async_for_with_tasks_posted post sched ws i [] up) as Hpre.
  cbn [app] in Hpre. destruct Hpre as [k Hk]. split; [|split].
  - intros task Hin.
    apply (proj1 (List.filter_In (gets_client post) task _)).
    rewrite Hk. apply in_or_app. now left.
  - pose proof (filter_incl_length (gets_client post)
                  (created_tasks (effects (async_for ws i server_url sync_url args up)))) as Hl.
    rewrite Hk, length_app in Hl. lia.
  - apply async_for_with_tasks_eager.
Qed.

End LoopFacts.

(** ** The candidate text of an event *)

Section CandidateFacts.

Lemma append_cons c a b : String c a +:+ b = String c (a +:+ b).
Proof. reflexivity. Qed.

Lemma append_nil b : EmptyString +:+ b = b.
Proof. reflexivity. Qed.

Ltac string_simpl := rewrite ?append_cons, ?append_nil; cbn -[isspace String.append].

Lemma lstrip_of_all_space ws : all_space ws = true -> lstrip ws = EmptyString.
Proof.
  induction ws as [|c ws IH]; cbn -[isspace]; [reflexivity|].
  intros Hc. apply andb_prop in Hc as [Hc Hws]. rewrite Hc. auto.
Qed.

Lemma lstrip_all_space ws s : all_space ws = true -> lstrip (ws +:+ s) = lstrip s.
Proof.
  induction ws as [|c ws IH]; string_simpl; [reflexivity|].
  intros Hc. apply andb_prop in Hc as [Hc Hws]. rewrite Hc. auto.
Qed.

Lemma rstrip_of_all_space ws : all_space ws = true -> rstrip ws = EmptyString.
Proof.
  induction ws as [|c ws IH]; cbn -[isspace]; [reflexivity|].
  intros Hc. apply andb_prop in Hc as [Hc Hws]. rewrite (IH Hws), Hc. reflexivity.
Qed.

Lemma rstrip_all_space s ws : all_space ws = true -> rstrip (s +:+ ws) = rstrip s.
Proof.
  intros Hws. induction s as [|c s IH]; string_simpl.
  - apply rstrip_of_all_space, Hws.
  - rewrite IH. reflexivity.
Qed.

Lemma strip_all_space_after s ws :
  all_space ws = true ->
  rstrip (lstrip (s +:+ ws)) = rstrip (lstrip s).
Proof.
  intros Hws. induction s as [|c s IH]; string_simpl.
  - rewrite (lstrip_of_all_space ws Hws). reflexivity.
  - destruct (isspace c); [exact IH|].
    rewrite <- append_cons. apply (rstrip_all_space (String c s) ws Hws).
Qed.

(** [strip] does not see white space added around its argument. *)
Lemma strip_surrounding pre s post :
  all_space pre = true -> all_space post = true ->
  strip (pre +:+ s +:+ post) = strip s.
Proof.
  intros Hpre Hpost. unfold strip.
  rewrite (lstrip_all_space pre _ Hpre). apply strip_all_space_after, Hpost.
Qed.


Context `{JsonModule}.

(** The body looks at an event through its candidate text only: two events
    with the same candidate text have the same effects, and either both are
    yielded or both raise the same exception. *)
Lemma loop_body_same_candidate w server_url sync_url args v1 v2 :
  value_json_str v1 = value_json_str v2 ->
  trace_of (loop_body w server_url sync_url args v1) =
    trace_of (loop_body w server_url sync_url args v2) /\
  result_of (loop_body w server_url sync_url args v1) =
    match result_of (loop_body w server_url sync_url args v2) with
    | Ok _ => Ok v1
    | Raise e => Raise e
    end.
Proof.
  intros Heq. unfold loop_body. rewrite Heq.
  destruct (truthy_opt server_url); [|split; reflexivity]. cbn [negb].
  destruct (json_loads (value_json_str v2)) as [j|msg|e]; [|split; reflexivity..].
  destruct (py_in "step" j) as [t1 [[]|e1]]; cbn -[py_in py_keys resolve_task_id dispatch];
    [| |split; reflexivity].
  - destruct (py_in "data" j) as [t2 [[]|e2]]; cbn -[py_keys resolve_task_id dispatch];
      [| |split; reflexivity].
    + destruct (resolve_task_id w args) as [t3 [tid|e3]]; cbn -[dispatch]; [|split; reflexivity].
      destruct (dispatch w sync_url tid j) as [t4 [[]|e4]]; split; reflexivity.
    + destruct (py_keys j) as [t3 [ks|e3]]; split; reflexivity.
  - destruct (py_keys j) as [t3 [ks|e3]]; split; reflexivity.
Qed.

Lemma marker_startswith x : startswith ("data: " +:+ x) "data: " = true.
Proof. destruct x; reflexivity. Qed.

Lemma marker_slice x : slice_from (String.length "data: ") ("data: " +:+ x) = x.
Proof. reflexivity. Qed.

(** X6: white space between the marker and the payload of a server-sent event
    line, and after the payload (the blank line that ends the frame), does
    not count: the candidate text is the same, and so are the log records,
    the lookups and the task created for the event. *)
Theorem surrounding_whitespace_is_ignored w server_url sync_url args pre body post :
  all_space pre = true ->
  all_space post = true ->
  let padded := EvStr ("data: " +:+ pre +:+ body +:+ post) in
  let bare := EvStr ("data: " +:+ body) in
  value_json_str padded = value_json_str bare /\
  trace_of (loop_body w server_url sync_url args padded) =
    trace_of (loop_body w server_url sync_url args bare).
Proof.
  intros Hpre Hpost padded bare.
  assert (Hc : value_json_str padded = value_json_str bare).
  { unfold padded, bare, value_json_str.
    rewrite !marker_startswith, !marker_slice.
    rewrite (strip_surrounding pre body post Hpre Hpost). reflexivity. }
  split; [exact Hc|]. apply (loop_body_same_candidate w server_url sync_url args _ _ Hc).
Qed.

Lemma py_in_raises key j t ex : py_in key j = (t, Raise ex) -> exc_type ex = "TypeError".
Proof. destruct j; cbn; intros Heq; try discriminate; injection Heq as <- <-; reflexivity. Qed.

Lemma py_keys_raises j t ex : py_keys j = (t, Raise ex) -> exc_type ex = "AttributeError".
Proof. destruct j; cbn; intros Heq; try discriminate; injection Heq as <- <-; reflexivity. Qed.

Lemma dispatch_raises w sync_url tid j t ex :
  is_object j = false ->
  dispatch w sync_url tid j = (t, Raise ex) -> exc_type ex = "TypeError".
Proof.
  unfold dispatch. destruct (truthy tid); [|discriminate].
  destruct j; try discriminate; cbn; intros _ Heq; injection Heq as <- <-; reflexivity.
Qed.

(** Correlation fails in one case only: the source has no [project_id]. *)
Lemma resolve_task_id_raises w args e :
  result_of (resolve_task_id w args) = Raise e ->
  exists chat, chat_of args = Some chat /\ chat !! "project_id" = None /\
               e = AttributeError "object has no attribute 'project_id'".
Proof.
  intros Hr. destruct (chat_of args) as [chat|] eqn:Hc.
  - destruct (chat !! "project_id") as [pid|] eqn:Hp.
    + destruct (resolve_task_id_ok w args) as (t & tid & Hok).
      { intros chat' Hc'. rewrite Hc in Hc'. injection Hc' as <-. eauto. }
      rewrite Hok in Hr. discriminate.
    + exists chat. split; [reflexivity|]. split; [exact Hp|].
      unfold resolve_task_id, getattr in Hr. rewrite Hc, Hp in Hr. cbn in Hr.
      now injection Hr as <-.
  - rewrite (resolve_no_source _ _ Hc) in Hr. discriminate.
Qed.

(** X3: the exceptions that leave the body, and when: with a sink configured,
    an exception of the decoder itself (as the [TypeError] for an event that
    is no text), a [TypeError] or [AttributeError] when the decoded value is
    not an object, and the [AttributeError] for a correlation source without
    [project_id].  An object-valued or undecodable event with a proper
    source never raises. *)
Theorem loop_body_raises_only_when w server_url sync_url args value e :
  result_of (loop_body w server_url sync_url args value) = Raise e ->
  truthy_opt server_url = true /\
  (json_loads (value_json_str value) = LoadsRaises e \/
   (exists j, json_loads (value_json_str value) = Parsed j /\ is_object j = false /\
              (exc_type e = "TypeError" \/ exc_type e = "AttributeError")) \/
   (exists items chat,
       json_loads (value_json_str value) = Parsed (JObj items) /\
       chat_of args = Some chat /\ chat !! "project_id" = None /\
       e = AttributeError "object has no attribute 'project_id'")).
Proof.
  intros Hr. destruct (truthy_opt server_url) eqn:Hs.
  2: { rewrite (loop_body_no_sink _ _ _ _ _ Hs) in Hr. discriminate. }
  split; [reflexivity|].
  destruct (json_loads (value_json_str value)) as [j|msg|e'] eqn:Hl.
  - destruct (is_object j) eqn:Hobj.
    + destruct j; try discriminate. right. right.
      destruct (dict_get items "step") as [st|] eqn:Hst.
      2: { rewrite (loop_body_missing_key _ _ _ _ _ _ Hs Hl (or_introl Hst)) in Hr.
           discriminate. }
      destruct (dict_get items "data") as [d|] eqn:Hd.
      2: { rewrite (loop_body_missing_key _ _ _ _ _ _ Hs Hl (or_intror Hd)) in Hr.
           discriminate. }
      destruct (resolve_task_id w args) as [t [tid|e3]] eqn:Hres.
      * rewrite (loop_body_mirrorable _ _ _ _ _ _ _ _ _ _ Hs Hl Hst Hd Hres) in Hr.
        discriminate.
      * rewrite (loop_body_validated _ _ _ _ _ _ Hs Hl (validated_object _ _ _ Hst Hd)),
          Hres in Hr. cbn in Hr. injection Hr as <-.
        destruct (resolve_task_id_raises w args e3) as (chat & Hc & Hp & He).
        { rewrite Hres. reflexivity. }
        eauto 7.
    + right. left. exists j. split; [reflexivity|]. split; [exact Hobj|].
      unfold loop_body in Hr. rewrite Hs, Hl in Hr. cbn [negb] in Hr.
      destruct (py_in "step" j) as [t1 [[]|e1]] eqn:E1;
        cbn -[py_in py_keys resolve_task_id dispatch] in Hr.
      * destruct (py_in "data" j) as [t2 [[]|e2]] eqn:E2;
          cbn -[py_keys resolve_task_id dispatch] in Hr.
        -- destruct (resolve_task_id w args) as [t3 [tid|e3]] eqn:Hq;
             cbn -[dispatch] in Hr.
           ++ destruct (dispatch w sync_url tid j) as [t4 [[]|e4]] eqn:Hd;
                cbn in Hr; [discriminate|].
              injection Hr as <-. left. exact (dispatch_raises _ _ _ _ _ _ Hobj Hd).
           ++ injection Hr as <-.
              destruct (resolve_task_id_raises w args e3) as (chat & _ & _ & ->).
              { rewrite Hq. reflexivity. }
              right. reflexivity.
        -- destruct (py_keys j) as [t3 [ks|e3]] eqn:Hk; cbn in Hr; [discriminate|].
           injection Hr as <-. right. exact (py_keys_raises _ _ _ Hk).
        -- injection Hr as <-. left. exact (py_in_raises _ _ _ _ E2).
      * destruct (py_keys j) as [t3 [ks|e3]] eqn:Hk; cbn in Hr; [discriminate|].
        injection Hr as <-. right. exact (py_keys_raises _ _ _ Hk).
      * injection Hr as <-. left. exact (py_in_raises _ _ _ _ E1).
  - rewrite (loop_body_decode_error _ _ _ _ _ _ Hs Hl) in Hr. discriminate.
  - unfold loop_body in Hr. rewrite Hs, Hl in Hr. cbn in Hr. injection Hr as <-. now left.
Qed.

End CandidateFacts.

(** * Properties of the tracing shim *)

Section SubstringFacts.

Lemma str_app_cons c a b : String c a +:+ b = String c (a +:+ b).
Proof. reflexivity. Qed.

Lemma str_prefix_nil s : String.prefix EmptyString s = true.
Proof. destruct s; reflexivity. Qed.

Lemma str_prefix_cons a p c s :
  String.prefix (String a p) (String c s) =
  if Ascii.eqb a c then String.prefix p s else false.
Proof.
  cbn. destruct (ascii_dec a c) as [->|Hne].
  - rewrite Ascii.eqb_refl. reflexivity.
  - destruct (Ascii.eqb a c) eqn:E; [|reflexivity].
    apply Ascii.eqb_eq in E. contradiction.
Qed.

Lemma str_prefix_intro p b : String.prefix p (p +:+ b) = true.
Proof.
  induction p as [|a p IH].
  - apply str_prefix_nil.
  - rewrite str_app_cons, str_prefix_cons, Ascii.eqb_refl. exact IH.
Qed.

Lemma str_prefix_elim p s : String.prefix p s = true -> exists b, s = p +:+ b.
Proof.
  revert s. induction p as [|a p IH]; intros s.
  - exists s. reflexivity.
  - destruct s as [|c s]; [discriminate|]. rewrite str_prefix_cons.
    destruct (Ascii.eqb a c) eqn:E; [|discriminate].
    apply Ascii.eqb_eq in E as ->. intros Hp.
    destruct (IH s Hp) as [b ->]. exists b. reflexivity.
Qed.

Lemma contains_unfold s p :
  contains s p =
  String.prefix p s || match s with
                       | String _ s' => contains s' p
                       | EmptyString => false
                       end.
Proof. destruct s; reflexivity. Qed.

(** [contains] decides whether the pattern occurs in the string. *)
Lemma contains_spec s p : contains s p = true <-> occurs_in p s.
Proof.
  unfold occurs_in. split.
  - induction s as [|c s IH]; rewrite contains_unfold; intros Hc;
      apply orb_prop in Hc as [Hp|Hc].
    + destruct (str_prefix_elim _ _ Hp) as [b ->]. exists EmptyString, b. reflexivity.
    + discriminate.
    + destruct (str_prefix_elim _ _ Hp) as [b ->]. exists EmptyString, b. reflexivity.
    + destruct (IH Hc) as (a & b & ->). exists (String c a), b. reflexivity.
  - intros (a & b & ->). induction a as [|c a IH]; rewrite contains_unfold.
    + change (EmptyString +:+ p +:+ b) with (p +:+ b). rewrite str_prefix_intro. reflexivity.
    + rewrite str_app_cons, IH. apply orb_true_r.
Qed.

Lemma contains_false s p : contains s p = false <-> ~ occurs_in p s.
Proof.
  rewrite <- contains_spec. destruct (contains s p); split; intros; congruence.
Qed.

End SubstringFacts.

Section ModuleName.

Import TracerootWrapper.

(** X15: the module name found for a caller whose [__file__] is the string [s]:
    [backend] exactly when [backend] occurs in [s], also when [server]
    occurs in it as well; [server] exactly when [server] occurs and
    [backend] does not; [unknown] exactly when neither occurs. *)
Theorem module_name_by_substring f0 f1 s back :
  let frame := Some (mkFrame f0 (Some (mkFrame f1 (Some (mkFrame (Some (PyStr s)) back))))) in
  (_get_module_name frame = Ok "backend" <-> occurs_in "backend" s) /\
  (_get_module_name frame = Ok "server" <->
     occurs_in "server" s /\ ~ occurs_in "backend" s) /\
  (_get_module_name frame = Ok "unknown" <->
     ~ occurs_in "backend" s /\ ~ occurs_in "server" s).
Proof.
  cbv zeta. unfold _get_module_name. cbn -[contains].
  rewrite <- !contains_false, <- !contains_spec.
  destruct (contains s "backend"), (contains s "server"); cbn;
    (split; [|split]); split; try tauto; try discriminate; try reflexivity;
    intros Hyp; try discriminate; try reflexivity;
    try (destruct Hyp; discriminate); auto.
Qed.

End ModuleName.

Section FallbackLogger.

Import TracerootWrapper.

(** The logger a name stands for. *)
Lemma getLogger_ref name reg :
  snd (getLogger name reg) =
  if String.eqb name EmptyString || String.eqb name "root"
  then RootLogger else NamedLogger name.
Proof.
  unfold getLogger.
  destruct (String.eqb name EmptyString || String.eqb name "root"); [reflexivity|].
  destruct (loggerDict reg !! name); reflexivity.
Qed.

(** Looking a logger up, and creating it on the way, shows no change of any
    logger. *)
Lemma getLogger_logger_at name reg ref :
  logger_at (fst (getLogger name reg)) ref = logger_at reg ref.
Proof.
  unfold getLogger.
  destruct (String.eqb name EmptyString || String.eqb name "root"); [reflexivity|].
  destruct (loggerDict reg !! name) as [l|] eqn:Hl; [reflexivity|].
  destruct ref as [|name']; [reflexivity|]. cbn.
  destruct (decide (name = name')) as [<-|Hne].
  - rewrite lookup_insert_eq, Hl. reflexivity.
  - rewrite lookup_insert_ne by exact Hne. reflexivity.
Qed.

Lemma getLogger_again name reg :
  getLogger name (fst (getLogger name reg)) = getLogger name reg.
Proof.
  unfold getLogger.
  destruct (String.eqb name EmptyString || String.eqb name "root") eqn:Hroot.
  - reflexivity.
  - destruct (loggerDict reg !! name) as [l|] eqn:Hl; cbn [fst loggerDict root].
    + rewrite Hl. reflexivity.
    + rewrite lookup_insert_eq. reflexivity.
Qed.

Lemma logger_at_set reg ref l : logger_at (set_logger reg ref l) ref = l.
Proof. destruct ref; cbn; [reflexivity|]. rewrite lookup_insert_eq. reflexivity. Qed.

Lemma logger_at_set_other reg ref ref' l :
  ref' <> ref -> logger_at (set_logger reg ref l) ref' = logger_at reg ref'.
Proof.
  intros Hne. destruct ref as [|name], ref' as [|name']; cbn; try reflexivity.
  - contradiction.
  - rewrite lookup_insert_ne; [reflexivity|]. intros ->. contradiction.
Qed.

(** What [get_logger] returns and what it does to the logger, in terms of
    the logger the name stands for. *)
Lemma get_logger_run name reg :
  let ref := snd (getLogger name reg) in
  snd (get_logger name reg) = ref /\
  match handlers (logger_at reg ref) with
  | [] =>
      fst (get_logger name reg) =
        set_logger (fst (getLogger name reg)) ref
                   (mkLogger [mkHandler "StreamHandler" (Some log_format)] INFO)
  | _ :: _ => fst (get_logger name reg) = fst (getLogger name reg)
  end.
Proof.
  cbv zeta. unfold get_logger.
  pose proof (getLogger_logger_at name reg (snd (getLogger name reg))) as Hat.
  destruct (getLogger name reg) as [reg1 ref]. cbn [fst snd] in *.
  rewrite <- Hat.
  destruct (handlers (logger_at reg1 ref)) as [|h hs] eqn:Hh; cbn; auto.
Qed.

(** X12: asking for the same logger again changes nothing: the handler is
    installed once, however often [get_logger] is called with the name. *)
Theorem get_logger_idempotent name reg :
  get_logger name (fst (get_logger name reg)) = get_logger name reg.
Proof.
  destruct (get_logger_run name reg) as [Href Hreg].
  set (ref := snd (getLogger name reg)) in *.
  assert (Hagain : get_logger name (fst (get_logger name reg))
                   = (fst (get_logger name reg), ref)).
  { destruct (handlers (logger_at reg ref)) as [|h hs] eqn:Hh.
    - (* the first call installed the handler *)
      rewrite Hreg. unfold get_logger at 1.
      assert (Hg : getLogger name
                     (set_logger (fst (getLogger name reg)) ref
                        (mkLogger [mkHandler "StreamHandler" (Some log_format)] INFO))
                   = (set_logger (fst (getLogger name reg)) ref
                        (mkLogger [mkHandler "StreamHandler" (Some log_format)] INFO), ref)).
      { unfold ref. rewrite getLogger_ref. unfold getLogger.
        destruct (String.eqb name EmptyString || String.eqb name "root"); [reflexivity|].
        destruct (loggerDict reg !! name); cbn; rewrite lookup_insert_eq; reflexivity. }
      rewrite Hg, logger_at_set. reflexivity.
    - (* the logger had handlers already *)
      rewrite Hreg. unfold get_logger at 1. rewrite getLogger_again.
      pose proof (getLogger_logger_at name reg ref) as Hat.
      rewrite (surjective_pairing (getLogger name reg)). fold ref.
      rewrite Hat, Hh. reflexivity. }
  rewrite Hagain, <- Href. symmetry. apply surjective_pairing.
Qed.

(** X13: a logger that has a handler already is left as it is, with its level:
    the call changes nothing at all. *)
Theorem get_logger_keeps_configured_logger name reg :
  let ref := snd (get_logger name reg) in
  handlers (logger_at reg ref) <> [] ->
  fst (get_logger name reg) = reg.
Proof.
  cbv zeta. destruct (get_logger_run name reg) as [-> Hreg]. intros Hh.
  destruct (handlers (logger_at reg (snd (getLogger name reg)))) eqn:Hl; [contradiction|].
  rewrite Hreg. clear Hreg. revert Hl. rewrite getLogger_ref. unfold getLogger.
  destruct (String.eqb name EmptyString || String.eqb name "root"); [reflexivity|].
  cbn [logger_at]. destruct (loggerDict reg !! name); [reflexivity|discriminate].
Qed.

(** X14: a logger without a handler gets exactly one: a stream handler with the
    shim's format, and its level becomes [INFO], whatever it was before.
    The other loggers, and with them the root logger unless it is the one
    asked for, stay as they are. *)
Theorem get_logger_configures_bare_logger name reg :
  let ref := snd (get_logger name reg) in
  handlers (logger_at reg ref) = [] ->
  logger_at (fst (get_logger name reg)) ref =
    mkLogger [mkHandler "StreamHandler" (Some log_format)] INFO /\
  (forall ref', ref' <> ref ->
                logger_at (fst (get_logger name reg)) ref' = logger_at reg ref').
Proof.
  cbv zeta. destruct (get_logger_run name reg) as [-> Hreg]. intros Hh.
  rewrite Hh in Hreg. rewrite Hreg. split.
  - apply logger_at_set.
  - intros ref' Hne. rewrite (logger_at_set_other _ _ _ _ Hne).
    apply getLogger_logger_at.
Qed.

End FallbackLogger.

Section LoadModule.

Import TracerootWrapper.
Variable Callable : Type.

Lemma parents_1_of (dir : Path) (d f : string) : parents_1 (dir ++ [d; f])%list = Ok dir.
Proof.
  unfold parents_1. rewrite length_app. cbn [length].
  replace (1 <? length dir + 2)%nat with true by (symmetry; apply Nat.ltb_lt; lia).
  replace (length dir + 2 - 2)%nat with (length dir) by lia.
  rewrite take_app_length. reflexivity.
Qed.

Lemma load_enabled (pkg : option (Traceroot.Package Callable)) :
  Traceroot.is_enabled Callable (Traceroot.load Callable pkg) =
  match pkg with Some p => Traceroot.init Callable p | None => false end.
Proof. destruct pkg as [p|]; [|reflexivity]. cbn. destruct (Traceroot.init Callable p); reflexivity. Qed.

(** X16: in fall-back mode (the package is missing or its [init] fails), and with
    the module file at least two directories deep, loading the module does
    not fail: it loads the [.env] file two levels above the module file,
    logs one warning that tells which of the two cases it is, and leaves
    every logger as it was; no handler is installed for that warning. *)
Theorem load_module_fallback pkg file frame reg :
  Traceroot.is_enabled Callable (Traceroot.load Callable pkg) = false ->
  (2 <= length file)%nat ->
  exists reg',
    load_module Callable pkg file frame reg =
      ([LoadDotenv (take (length file - 2) file ++ [".env"])%list;
        WarningFallback
          (match pkg with
           | Some _ => "TraceRoot available but not initialized - using Python logging as fallback"
           | None => "TraceRoot not available - using Python logging as fallback"
           end)],
       Ok (Traceroot.load Callable pkg, reg')) /\
    forall ref, logger_at reg' ref = logger_at reg ref.
Proof.
  intros Hdis Hlen. rewrite load_enabled in Hdis.
  exists (fst (getLogger "traceroot_wrapper" reg)). split.
  - unfold load_module, parents_1.
    replace (1 <? length file)%nat with true by (symmetry; apply Nat.ltb_lt; lia).
    rewrite Hdis. destruct (getLogger "traceroot_wrapper" reg) as [reg1 ref]. reflexivity.
  - intros ref. apply getLogger_logger_at.
Qed.

(** X17: loading the module fails in two cases only: with [IndexError] when the
    module file is less than two directories deep, and, when tracing is
    enabled, with the exception of [_get_module_name]. *)
Theorem load_module_raises_only_when pkg file frame reg e :
  snd (load_module Callable pkg file frame reg) = Raise e <->
  ((length file < 2)%nat /\ e = mkExc "IndexError" "1" true) \/
  ((2 <= length file)%nat /\
   Traceroot.is_enabled Callable (Traceroot.load Callable pkg) = true /\
   _get_module_name frame = Raise e).
Proof.
  rewrite load_enabled. unfold load_module, parents_1.
  destruct (1 <? length file)%nat eqn:Hlen.
  - apply Nat.ltb_lt in Hlen.
    destruct (match pkg with Some p => Traceroot.init Callable p | None => false end).
    + destruct (_get_module_name frame) as [m|e']; cbn; split.
      * discriminate.
      * intros [[Hlt _]|(_ & _ & Hf)]; [lia|discriminate].
      * intros [= <-]. right. split; [lia|]. split; reflexivity.
      * intros [[Hlt _]|(_ & _ & Hf)]; [lia|]. congruence.
    + destruct (getLogger "traceroot_wrapper" reg) as [reg1 ref]. cbn. split.
      * discriminate.
      * intros [[Hlt _]|(_ & Hf & _)]; [lia|discriminate].
  - apply Nat.ltb_ge in Hlen. cbn. split.
    + intros [= <-]. left. split; [lia|reflexivity].
    + intros [[_ ->]|(Hge & _)]; [reflexivity|lia].
Qed.

(** X18: whatever the names of the module file and of its directory, the [.env]
    file loaded is the one beside that directory, and it is loaded first.
    When loading succeeds there is exactly one log record after it: the
    information that tracing is initialised when the shim reports itself
    enabled, the fall-back warning when it does not. *)
Theorem load_module_effects pkg (dir : Path) (d f : string) frame reg :
  let run := load_module Callable pkg (dir ++ [d; f])%list frame reg in
  head (fst run) = Some (LoadDotenv (dir ++ [".env"])%list) /\
  (forall shim reg', snd run = Ok (shim, reg') ->
     exists record,
       fst run = [LoadDotenv (dir ++ [".env"])%list; record] /\
       shim = Traceroot.load Callable pkg /\
       match record with
       | InfoInitialized _ => Traceroot.is_enabled Callable shim = true
       | WarningFallback _ => Traceroot.is_enabled Callable shim = false
       | LoadDotenv _ => False
       end).
Proof.
  cbv zeta. unfold load_module. rewrite parents_1_of, <- load_enabled.
  destruct (Traceroot.is_enabled Callable (Traceroot.load Callable pkg)) eqn:Hen.
  - destruct (_get_module_name frame) as [m|e']; cbn; (split; [reflexivity|]).
    + intros shim reg' [= <- <-]. eexists. split; [reflexivity|]. split; [reflexivity|].
      exact Hen.
    + intros shim reg'. discriminate.
  - destruct (getLogger "traceroot_wrapper" reg) as [reg1 ref]. cbn.
    split; [reflexivity|].
    intros shim reg' [= <- <-]. eexists. split; [reflexivity|]. split; [reflexivity|].
    exact Hen.
Qed.

End LoadModule.

Section SinkUrl.

Lemma str_app_assoc a b c : (a +:+ b) +:+ c = a +:+ (b +:+ c).
Proof. induction a as [|x a IH]; [reflexivity|]. rewrite !str_app_cons, IH. reflexivity. Qed.

(** X8: the address of the sink is the configured text with [/chat/steps]
    appended, as it is: a base URL that ends in a slash gives an address
    with two slashes, and text made of blanks counts as a configured
    sink. *)
Theorem sync_url_is_plain_concatenation s :
  sync_url_of (Some (s +:+ "/")) = Some (s +:+ "//chat/steps") /\
  sync_url_of (Some (" " +:+ s)) = Some (" " +:+ s +:+ "/chat/steps") /\
  sync_url_of (Some EmptyString) = None /\
  sync_url_of None = None.
Proof.
  repeat split.
  - unfold sync_url_of.
    assert (Ht : truthy_opt (Some (s +:+ "/")) = true) by (destruct s; reflexivity).
    rewrite Ht. cbn [option_map]. rewrite str_app_assoc. reflexivity.
Qed.

End SinkUrl.

(** * The model on concrete inputs *)

Import Examples JsonText.

Lemma mirrorable_event_dispatches_once_witness :
  let m := loop_body sink_world (Some sink) (sync_url_of (Some sink)) [chat] plan_event in
  truthy_opt (Some sink) = true /\
  json_loads (value_json_str plan_event) =
    Parsed (JObj [("step", JStr "plan"); ("data", JObj [("x", JInt 1)])]) /\
  result_of m = Ok plan_event /\
  created_tasks (trace_of m) = [(Some "http://sink/chat/steps", plan_payload "T1")] /\
  List.filter is_client_post (run_tasks refused (created_tasks (trace_of m))) =
    [ClientPost (Some "http://sink/chat/steps") (plan_payload "T1")].
Proof.
  split; [reflexivity|]. split; [vm_compute; reflexivity|].
  apply (mirrorable_event_dispatches_once (H := json_module)
           sink_world sink [chat] plan_event
           [("step", JStr "plan"); ("data", JObj [("x", JInt 1)])]
           (JStr "plan") (JObj [("x", JInt 1)])
           [CallGetTaskLock (PyStr "P1"); Log WARNING (TaskLockNotFound (PyStr "P1"))]
           (PyStr "T1") refused);
    vm_compute; reflexivity.
Defined.

Lemma dispatched_task_id_follows_task_lock_witness :
  let dispatched w :=
    map (fun task : Task => task_id (snd task))
        (created_tasks
           (trace_of (loop_body w (Some sink) (sync_url_of (Some sink)) [chat] plan_event))) in
  dispatched lock_world = [PyStr "T2"] /\
  dispatched idle_lock_world = [PyStr "T1"] /\
  In (Log WARNING (TaskLockNotFound (PyStr "P1")))
     (trace_of (loop_body sink_world (Some sink) (sync_url_of (Some sink)) [chat] plan_event)) /\
  dispatched sink_world = [PyStr "T1"].
Proof.
  pose proof (fun w =>
    dispatched_task_id_follows_task_lock (H := json_module)
      w sink [chat] chat (PyStr "P1") (PyStr "T1") plan_event
      [("step", JStr "plan"); ("data", JObj [("x", JInt 1)])]
      (JStr "plan") (JObj [("x", JInt 1)])
      ltac:(by_eval) ltac:(by_eval) ltac:(by_eval) ltac:(by_eval)
      ltac:(by_eval) ltac:(by_eval) ltac:(by_eval)) as T.
  cbv zeta. split; [|split].
  - destruct (T lock_world) as (Hcur & _ & _).
    exact (proj2 (Hcur busy_lock (PyStr "T2")
                    ltac:(by_eval) ltac:(by_eval) ltac:(by_eval))).
  - destruct (T idle_lock_world) as (_ & Hidle & _).
    assert (Hfield : idle_lock !! "current_task_id" = None \/
                     exists cur, idle_lock !! "current_task_id" = Some cur /\
                                 truthy cur = false)
      by (right; exists (PyStr EmptyString); split; by_eval).
    exact (proj2 (Hidle idle_lock ltac:(by_eval) Hfield)).
  - destruct (T sink_world) as (_ & _ & Hnone).
    destruct (Hnone ltac:(by_eval)) as (Hwarn & _ & Hd).
    split; [exact Hwarn|exact Hd].
Defined.

Lemma send_to_api_catches_post_errors_witness :
  let url := Some "http://sink/chat/steps" in
  send_to_api refused url (plan_payload "T1") =
    ([ClientOpen; ClientPost url (plan_payload "T1");
      Log ERROR (FailedToSync url "ConnectError" "All connection attempts failed");
      ClientClose], Ok tt) /\
  yielded (async_for_with_tasks refused (fun _ => true) (fun _ => sink_world) O
             (Some sink) (sync_url_of (Some sink)) [chat] []
             (produces [plan_event; plan_event] [chat] ∅)) =
    [plan_event; plan_event].
Proof.
  cbv zeta.
  destruct (send_to_api_catches_post_errors (H := json_module) refused
              (Some "http://sink/chat/steps") (plan_payload "T1"))
    as (Hsend & _ & Hstream).
  split.
  - exact (Hsend (mkExc "ConnectError" "All connection attempts failed" true)
             eq_refl eq_refl).
  - destruct (Hstream (fun _ => true) (fun _ => sink_world) O (Some sink)
                (sync_url_of (Some sink)) [chat] []
                (produces [plan_event; plan_event] [chat] ∅)) as [-> _].
    vm_compute; reflexivity.
Defined.

(** C5, as stated, fails: the [try] of [send_to_api] is around the post
    only and catches [Exception] only.  A cancellation raised by the post
    leaves the call, after the client is closed; an exception raised when
    the client is built leaves it before anything is posted; and so does
    one raised when the client is left, after a post that succeeded. *)
Lemma send_to_api_lets_exceptions_out :
  let url := Some "http://sink/chat/steps" in
  send_to_api cancelled url (plan_payload "T1") =
    ([ClientOpen; ClientPost url (plan_payload "T1"); ClientClose],
     Raise (mkExc "CancelledError" EmptyString false)) /\
  send_to_api no_client url (plan_payload "T1") =
    ([], Raise (mkExc "ImportError" "cannot import name 'AsyncClient'" true)) /\
  send_to_api close_fails url (plan_payload "T1") =
    ([ClientOpen; ClientPost url (plan_payload "T1"); ClientClose],
     Raise (mkExc "RuntimeError" "Event loop is closed" true)).
Proof. repeat split; vm_compute; reflexivity. Qed.

Lemma no_sink_is_pass_through_witness :
  let func := produces [plan_event; EvStr "not json"; array_event; dict_event] in
  truthy_opt (env no_sink_world "SERVER_URL") = false /\
  sync_step sink_world func (fun _ => no_sink_world) [chat] ∅ =
    mkRun [plan_event; EvStr "not json"; array_event; dict_event]
          [CallEnv "SERVER_URL"] Exhausted /\
  truthy_opt (env empty_sink_world "SERVER_URL") = false /\
  sync_step sink_world func (fun _ => empty_sink_world) [chat] ∅ =
    mkRun [plan_event; EvStr "not json"; array_event; dict_event]
          [CallEnv "SERVER_URL"] Exhausted.
Proof.
  cbv zeta. split; [vm_compute; reflexivity|]. split; [|split; [vm_compute; reflexivity|]].
  - apply (no_sink_is_pass_through (H := json_module) sink_world
             (produces [plan_event; EvStr "not json"; array_event; dict_event])
             (fun _ => no_sink_world) [chat] ∅).
    vm_compute; reflexivity.
  - apply (no_sink_is_pass_through (H := json_module) sink_world
             (produces [plan_event; EvStr "not json"; array_event; dict_event])
             (fun _ => empty_sink_world) [chat] ∅).
    vm_compute; reflexivity.
Defined.

Lemma correlation_source_has_task_id_witness :
  chat_of [only_project_id] = None /\
  resolve_task_id sink_world [only_project_id] = ([], Ok PyNone) /\
  loop_body sink_world (Some sink) (sync_url_of (Some sink)) [only_project_id] plan_event =
    ([CallJsonLoads (EvStr plan_json)], Ok plan_event).
Proof.
  split; [by_eval|].
  destruct (correlation_source_has_task_id (H := json_module) sink_world
              (Some sink) (sync_url_of (Some sink)) [only_project_id] plan_event
              ltac:(by_eval))
    as (_ & _ & Hres & _ & Hyield).
  split; [exact Hres|].
  exact (Hyield (JObj [("step", JStr "plan"); ("data", JObj [("x", JInt 1)])])
           ltac:(by_eval) ltac:(by_eval) ltac:(split; by_eval)).
Defined.

(** C7, as stated, fails: a first argument with [task_id] but without
    [project_id] is taken as the correlation source, and reading its
    [project_id] raises [AttributeError] before the event is yielded. *)
Lemma task_id_without_project_id_raises :
  hasattr only_task_id "project_id" = false /\
  chat_of [only_task_id] = Some only_task_id /\
  loop_body sink_world (Some sink) (sync_url_of (Some sink)) [only_task_id] plan_event =
    ([CallJsonLoads (EvStr plan_json)],
     Raise (AttributeError "object has no attribute 'project_id'")).
Proof. repeat split; vm_compute; reflexivity. Qed.

Lemma server_url_is_read_at_each_call_witness :
  let func := produces [plan_event] in
  let later k := match k with O => sink_world | S _ => sink_world_reconfigured end in
  environ sink_world_reconfigured <> environ sink_world /\
  sync_step no_sink_world func (fun _ => sink_world) [chat] ∅ =
    sync_step sink_world func later [chat] ∅ /\
  List.filter is_env_read
    (effects (sync_step no_sink_world func (fun _ => sink_world) [chat] ∅)) =
    [CallEnv "SERVER_URL"].
Proof.
  cbv zeta. split.
  - intros Heq. apply (f_equal (fun m => m !! "SERVER_URL")) in Heq.
    vm_compute in Heq. discriminate.
  - apply (server_url_is_read_at_each_call (H := json_module) no_sink_world sink_world
             (produces [plan_event]) (fun _ => sink_world)
             (fun k => match k with O => sink_world | S _ => sink_world_reconfigured end)
             [chat] ∅).
    + reflexivity.
    + intros k. split; reflexivity.
Defined.

(** C8, as stated, fails: a function decorated while no sink is configured
    mirrors its events once a sink is configured at the time it is called;
    under the configuration of the decoration it would not. *)
Lemma sink_configured_after_decoration_is_used :
  let wrapped := sync_step no_sink_world (produces [plan_event]) in
  env no_sink_world "SERVER_URL" = None /\
  created_tasks (effects (wrapped (fun _ => sink_world) [chat] ∅)) =
    [(Some "http://sink/chat/steps", plan_payload "T1")] /\
  created_tasks (effects (wrapped (fun _ => no_sink_world) [chat] ∅)) = [].
Proof. repeat split; vm_compute; reflexivity. Qed.

Lemma trace_is_noop_when_disabled_witness :
  let failing := {| Traceroot.init := false;
                    Traceroot.package_trace := fun _ (f : nat -> nat) n => S (f n) |} in
  Traceroot.trace (nat -> nat) (Traceroot.load (nat -> nat) None) ([], ∅) S = S /\
  Traceroot.trace (nat -> nat) (Traceroot.load (nat -> nat) (Some failing)) ([], ∅) S = S.
Proof.
  cbv zeta. split.
  - apply (trace_is_noop_when_disabled (nat -> nat) None). reflexivity.
  - apply (trace_is_noop_when_disabled (nat -> nat)). reflexivity.
Defined.

Lemma falsy_task_id_skips_dispatch_witness :
  loop_body sink_world (Some sink) (sync_url_of (Some sink)) [chat_no_task_id] plan_event =
    ([CallJsonLoads (EvStr plan_json); CallGetTaskLock (PyStr "P1");
      Log WARNING (TaskLockNotFound (PyStr "P1"))], Ok plan_event) /\
  loop_body sink_world (Some sink) (sync_url_of (Some sink)) [] plan_event =
    ([CallJsonLoads (EvStr plan_json)], Ok plan_event).
Proof.
  pose proof (fun args t tid =>
    falsy_task_id_skips_dispatch (H := json_module) sink_world (Some sink)
      (sync_url_of (Some sink)) args plan_event
      (JObj [("step", JStr "plan"); ("data", JObj [("x", JInt 1)])]) t tid
      ltac:(by_eval) ltac:(by_eval) ltac:(split; by_eval)) as T.
  split.
  - destruct (T [chat_no_task_id]
                [CallGetTaskLock (PyStr "P1"); Log WARNING (TaskLockNotFound (PyStr "P1"))]
                (PyStr EmptyString) ltac:(by_eval)) as (Hfalsy & _ & _).
    exact (proj1 (Hfalsy ltac:(by_eval))).
  - destruct (T [] [] PyNone ltac:(by_eval)) as (Hfalsy & _ & _).
    exact (proj1 (Hfalsy ltac:(by_eval))).
Defined.

(** C2: the code on events that are valid JSON but no object, or no text
    at all.  With a sink configured, an
    event that decodes to an array without [step] enters the branch for a
    missing key, where [json_data.keys()] raises [AttributeError] before
    anything is logged or yielded; an event that decodes to a number makes
    the [in] test raise [TypeError]; an event that is no text makes
    [json.loads] raise [TypeError], which the handler for decoding errors
    does not catch. *)
Theorem non_object_event_raises :
  let body := loop_body sink_world (Some sink) (sync_url_of (Some sink)) [chat] in
  body array_event =
    ([CallJsonLoads (EvStr "[1]")],
     Raise (AttributeError "'list' object has no attribute 'keys'")) /\
  body number_event =
    ([CallJsonLoads (EvStr "5")],
     Raise (TypeError "argument of type 'int' is not iterable")) /\
  body dict_event =
    ([CallJsonLoads (EvObject "dict")],
     Raise (TypeError "the JSON object must be str, bytes or bytearray, not dict")).
Proof. repeat split; vm_compute; reflexivity. Qed.

(** C1: the code on a stream of two events, with a sink configured.  The
    first event decodes to an array; the exception it causes leaves the
    generator, so neither this event nor the next one is yielded, while the
    unwrapped stream yields both. *)
Theorem wrapper_drops_events_after_json_array :
  let func := produces [array_event; plan_event] in
  let run := sync_step sink_world func (fun _ => sink_world) [chat] ∅ in
  yielded (unwrapped (func [chat] ∅)) = [array_event; plan_event] /\
  ending (unwrapped (func [chat] ∅)) = Exhausted /\
  yielded run = [] /\
  ending run = Failed (AttributeError "'list' object has no attribute 'keys'").
Proof. repeat split; vm_compute; reflexivity. Qed.

(** The events the handlers of the body are written for: text that is not
    JSON, and an object without [data], are logged and yielded; nothing is
    dispatched. *)
Example malformed_events_are_logged_and_yielded :
  let body := loop_body sink_world (Some sink) (sync_url_of (Some sink)) [chat] in
  body (EvStr "not json") =
    ([CallJsonLoads (EvStr "not json");
      Log ERROR (FailedToParse "Expecting value" (EvStr "not json"))],
     Ok (EvStr "not json")) /\
  body no_data_event =
    ([CallJsonLoads (EvStr ("{" +:+ quoted "step" +:+ ": 1}"));
      Log ERROR (MissingKey ["step"])],
     Ok no_data_event).
Proof. split; vm_compute; reflexivity. Qed.

(** * The further properties on concrete inputs *)

Import MoreExamples TracerootWrapper.

Lemma wrapper_faithful_on_expected_events_witness :
  let func := produces [plan_event; EvStr "not json"; no_data_event] in
  yielded (wrapper func (fun _ => sink_world) [chat] ∅) =
    [plan_event; EvStr "not json"; no_data_event] /\
  ending (wrapper func (fun _ => sink_world) [chat] ∅) = Exhausted.
Proof.
  apply (wrapper_faithful_on_expected_events (H := json_module)
           (produces [plan_event; EvStr "not json"; no_data_event])
           (fun _ => sink_world) [chat] ∅).
  - intros c Hc. vm_compute in Hc. injection Hc as <-.
    exists (PyStr "P1"). vm_compute. reflexivity.
  - intros value Hin. cbn in Hin.
    destruct Hin as [<-|[<-|[<-|[]]]].
    + right. eexists. vm_compute. reflexivity.
    + left. eexists. vm_compute. reflexivity.
    + right. eexists. vm_compute. reflexivity.
Defined.

Lemma wrapper_stops_at_first_raise_witness :
  let func := fun (_ : list pyobj) (_ : gmap string pyobj) =>
                followed_by [plan_event] (UNext array_event (UNext plan_event UStop)) in
  let func' := fun (_ : list pyobj) (_ : gmap string pyobj) =>
                 followed_by [plan_event] (UNext array_event UStop) in
  wrapper func (fun _ => sink_world) [chat] ∅ = wrapper func' (fun _ => sink_world) [chat] ∅ /\
  yielded (wrapper func (fun _ => sink_world) [chat] ∅) `prefix_of` [plan_event] /\
  ending (wrapper func (fun _ => sink_world) [chat] ∅) <> Exhausted.
Proof.
  apply (wrapper_stops_at_first_raise (H := json_module)
           (fun _ _ => followed_by [plan_event] (UNext array_event (UNext plan_event UStop)))
           (fun _ _ => followed_by [plan_event] (UNext array_event UStop))
           (fun _ => sink_world) [chat] ∅ [plan_event] array_event
           (UNext plan_event UStop) UStop
           (AttributeError "'list' object has no attribute 'keys'")).
  - reflexivity.
  - reflexivity.
  - vm_compute. reflexivity.
Defined.

Lemma loop_body_raises_only_when_witness :
  result_of (loop_body sink_world (Some sink) (sync_url_of (Some sink)) [chat] array_event) =
    Raise (AttributeError "'list' object has no attribute 'keys'") /\
  (json_loads (value_json_str array_event) =
     LoadsRaises (AttributeError "'list' object has no attribute 'keys'") \/
   (exists j, json_loads (value_json_str array_event) = Parsed j /\ is_object j = false /\
              (exc_type (AttributeError "'list' object has no attribute 'keys'") = "TypeError" \/
               exc_type (AttributeError "'list' object has no attribute 'keys'") = "AttributeError")) \/
   (exists items c,
       json_loads (value_json_str array_event) = Parsed (JObj items) /\
       chat_of [chat] = Some c /\ c !! "project_id" = None /\
       AttributeError "'list' object has no attribute 'keys'" =
         AttributeError "object has no attribute 'project_id'")).
Proof.
  split; [vm_compute; reflexivity|].
  apply (loop_body_raises_only_when (H := json_module) sink_world (Some sink)
           (sync_url_of (Some sink)) [chat] array_event
           (AttributeError "'list' object has no attribute 'keys'")).
  vm_compute. reflexivity.
Defined.

Lemma surrounding_whitespace_is_ignored_witness :
  let padded := EvStr ("data: " +:+ " " +:+ plan_json +:+ (newline +:+ newline)) in
  value_json_str padded = EvStr plan_json /\
  trace_of (loop_body sink_world (Some sink) (sync_url_of (Some sink)) [chat] padded) =
    trace_of (loop_body sink_world (Some sink) (sync_url_of (Some sink)) [chat] plan_event).
Proof.
  destruct (surrounding_whitespace_is_ignored (H := json_module) sink_world (Some sink)
              (sync_url_of (Some sink)) [chat] " " plan_json (newline +:+ newline))
    as [Hc Ht].
  - vm_compute. reflexivity.
  - vm_compute. reflexivity.
  - split; [|exact Ht]. rewrite Hc. vm_compute. reflexivity.
Defined.

Lemma get_logger_keeps_configured_logger_witness :
  handlers (logger_at configured_registry (NamedLogger "sync_step")) <> [] /\
  fst (get_logger "sync_step" configured_registry) = configured_registry.
Proof.
  split; [vm_compute; discriminate|].
  apply (get_logger_keeps_configured_logger "sync_step" configured_registry).
  vm_compute. discriminate.
Defined.

Lemma get_logger_configures_bare_logger_witness :
  logger_at (fst (get_logger "sync_step" levelled_registry)) (NamedLogger "sync_step") =
    mkLogger [mkHandler "StreamHandler" (Some log_format)] INFO /\
  logger_at (fst (get_logger "sync_step" levelled_registry)) RootLogger =
    mkLogger [] 30.
Proof.
  destruct (get_logger_configures_bare_logger "sync_step" levelled_registry) as [Hl Hother].
  - vm_compute. reflexivity.
  - split.
    + exact Hl.
    + rewrite (Hother RootLogger); [reflexivity|]. vm_compute. discriminate.
Defined.

Lemma load_module_fallback_witness :
  exists reg',
    load_module (nat -> nat) None shim_file (frames_from None) bare_registry =
      ([LoadDotenv ["srv"; "app"; ".env"];
        WarningFallback "TraceRoot not available - using Python logging as fallback"],
       Ok (Traceroot.load (nat -> nat) None, reg')) /\
    forall ref, logger_at reg' ref = logger_at bare_registry ref.
Proof.
  apply (load_module_fallback (nat -> nat) None shim_file (frames_from None) bare_registry).
  - reflexivity.
  - cbn. lia.
Defined.
